(** * Dead-reckoning estimator and georeferencing correlator

    A shallow embedding of the sensor callbacks of
    [src/components/DRModule.jsx] ([handleDeviceOrientation],
    [handleDeviceMotion], [clearPath]) and of the two effects of
    [src/components/PathVisualizer.jsx] that project the dead-reckoning
    path and collect the GPS trace.

    Numbers.  A JavaScript number is modelled by [JS.num]: a real number,
    one of the two infinities, or NaN.  Finite arithmetic is exact real
    arithmetic: rounding, overflow to an infinity and the sign of zero are
    outside the model.  The special values follow IEEE 754 as JavaScript
    exposes it (NaN is absorbing and compares false with everything,
    [Infinity * 0] is NaN, [x / 0] is an infinity, [%] keeps the sign of the
    dividend).
    An equation between two different finite expressions proved in this
    model is an identity of real numbers; where a statement of that kind
    is at stake, the rounding of the program is examined on the kernel's
    binary64 floats in the module [Binary64].

    React.  A component keeps state cells ([useState]) and mutable
    references ([useRef]).  A setter writes the state cell; the
    [useEffect] hooks that mirror a state cell into its reference run when
    React commits a render, which is the separate function [commit]. *)

From Stdlib Require Import Reals Lra List Bool Arith Lia ZArith.
From Stdlib Require String PrimFloat.
Import ListNotations.

Open Scope R_scope.

(* ================================================================= *)
(** ** JavaScript numbers and values *)

Module JS.

Inductive num : Type :=
| Fin (r : R)
| PInf
| NInf
| NaN.

(** A property value of a DOM event: absent, [null], or a number. *)
Inductive value : Type :=
| Undefined
| Null
| Num (n : num).

Inductive sign := Neg | Zero | Pos.

Definition sgn (r : R) : sign :=
  if Rlt_dec 0 r then Pos else if Rlt_dec r 0 then Neg else Zero.

(** Unary minus. *)
Definition neg (a : num) : num :=
  match a with
  | Fin r => Fin (- r)
  | PInf => NInf
  | NInf => PInf
  | NaN => NaN
  end.

(** [a + b].  On two finite numbers this is the exact real sum: the
    rounding to binary64 of the source is not modelled, so an equation
    between two different expressions proved here is an identity of real
    numbers and need not hold bit for bit in the program (see
    [Binary64] below). *)
Definition add (a b : num) : num :=
  match a, b with
  | NaN, _ | _, NaN => NaN
  | Fin p, Fin q => Fin (p + q)
  | PInf, NInf | NInf, PInf => NaN
  | PInf, _ | _, PInf => PInf
  | NInf, _ | _, NInf => NInf
  end.

(** [a - b] *)
Definition sub (a b : num) : num := add a (neg b).

Definition signed_inf (s : sign) : num :=
  match s with Pos => PInf | Neg => NInf | Zero => NaN end.

(** [a * b]; exact on two finite numbers, like [add]. *)
Definition mul (a b : num) : num :=
  match a, b with
  | NaN, _ | _, NaN => NaN
  | Fin p, Fin q => Fin (p * q)
  | Fin p, PInf | PInf, Fin p => signed_inf (sgn p)
  | Fin p, NInf | NInf, Fin p => neg (signed_inf (sgn p))
  | PInf, PInf | NInf, NInf => PInf
  | PInf, NInf | NInf, PInf => NInf
  end.

(** [a / b]; a zero divisor is taken as [+0]. *)
Definition div (a b : num) : num :=
  match a, b with
  | NaN, _ | _, NaN => NaN
  | Fin p, Fin q =>
      if Req_dec_T q 0 then signed_inf (sgn p) else Fin (p / q)
  | Fin _, PInf | Fin _, NInf => Fin 0
  | PInf, Fin q => if Rlt_dec q 0 then NInf else PInf
  | NInf, Fin q => if Rlt_dec q 0 then PInf else NInf
  | _, _ => NaN
  end.

(** Rounding towards zero. *)
Definition Rtrunc (r : R) : Z :=
  if Rle_dec 0 r then Int_part r else (- Int_part (- r))%Z.

(** [a % b]: the remainder has the sign of the dividend. *)
Definition rem (a b : num) : num :=
  match a, b with
  | NaN, _ | _, NaN => NaN
  | PInf, _ | NInf, _ => NaN
  | Fin p, PInf | Fin p, NInf => Fin p
  | Fin p, Fin q =>
      if Req_dec_T q 0 then NaN else Fin (p - q * IZR (Rtrunc (p / q)))
  end.

(** [a < b], [a <= b], [a > b]: false as soon as one side is NaN. *)
Definition lt (a b : num) : bool :=
  match a, b with
  | NaN, _ | _, NaN => false
  | Fin p, Fin q => if Rlt_dec p q then true else false
  | NInf, Fin _ | NInf, PInf | Fin _, PInf => true
  | _, _ => false
  end.

Definition le (a b : num) : bool :=
  match a, b with
  | NaN, _ | _, NaN => false
  | Fin p, Fin q => if Rle_dec p q then true else false
  | NInf, _ | _, PInf => true
  | _, _ => false
  end.

Definition gt (a b : num) : bool := lt b a.

(** Truthiness of a number: [0] and NaN are falsy. *)
Definition truthy (a : num) : bool :=
  match a with
  | NaN => false
  | Fin r => if Req_dec_T r 0 then false else true
  | PInf | NInf => true
  end.

(** [a || d] on a number. *)
Definition num_or (a d : num) : num := if truthy a then a else d.

(** [v || d] on a property value; [undefined] and [null] are falsy. *)
Definition or (v : value) (d : num) : num :=
  match v with
  | Num n => num_or n d
  | Undefined | Null => d
  end.

(** [v ?? w] *)
Definition nullish (v w : value) : value :=
  match v with
  | Undefined | Null => w
  | Num _ => v
  end.

(** [typeof v === "number" && !Number.isNaN(v)] *)
Definition number_not_NaN (v : value) : option num :=
  match v with
  | Num NaN => None
  | Num n => Some n
  | Undefined | Null => None
  end.

(** [v !== undefined] *)
Definition defined (v : value) : bool :=
  match v with Undefined => false | _ => true end.

(** *** The [Math] object *)

Definition Math_PI : num := Fin PI.

Definition Math_abs (a : num) : num :=
  match a with
  | Fin r => Fin (Rabs r)
  | PInf | NInf => PInf
  | NaN => NaN
  end.

(** [Math.cos] and [Math.sin] are the exact real functions on finite
    numbers; the library functions of the host return binary64
    approximations of them. *)
Definition Math_cos (a : num) : num :=
  match a with Fin r => Fin (cos r) | _ => NaN end.

Definition Math_sin (a : num) : num :=
  match a with Fin r => Fin (sin r) | _ => NaN end.

Definition Math_exp (a : num) : num :=
  match a with
  | Fin r => Fin (exp r)
  | PInf => PInf
  | NInf => Fin 0
  | NaN => NaN
  end.

Definition Math_sqrt (a : num) : num :=
  match a with
  | Fin r => if Rlt_dec r 0 then NaN else Fin (sqrt r)
  | PInf => PInf
  | NInf | NaN => NaN
  end.

(** [Math.pow(a, n)] for a literal exponent [n] that is a natural number. *)
Definition Math_pow (a : num) (n : nat) : num :=
  match n with
  | O => Fin 1
  | S _ =>
      match a with
      | Fin r => Fin (r ^ n)
      | PInf => PInf
      | NInf => if Nat.even n then PInf else NInf
      | NaN => NaN
      end
  end.

(** [Math.hypot(a, b)]: an infinite argument wins over NaN. *)
Definition Math_hypot (a b : num) : num :=
  match a, b with
  | PInf, _ | NInf, _ | _, PInf | _, NInf => PInf
  | NaN, _ | _, NaN => NaN
  | Fin p, Fin q => Fin (sqrt (p * p + q * q))
  end.

(** The angle of the point [(q, p)], in [(-PI, PI]]. *)
Definition Ratan2 (p q : R) : R :=
  match sgn q with
  | Pos => atan (p / q)
  | Neg => if Rlt_dec p 0 then atan (p / q) - PI else atan (p / q) + PI
  | Zero =>
      match sgn p with
      | Pos => PI / 2
      | Neg => - (PI / 2)
      | Zero => 0
      end
  end.

(** [Math.atan2(a, b)] *)
Definition Math_atan2 (a b : num) : num :=
  match a, b with
  | NaN, _ | _, NaN => NaN
  | Fin p, Fin q => Fin (Ratan2 p q)
  | Fin p, PInf => Fin 0
  | Fin p, NInf => if Rlt_dec p 0 then Fin (- PI) else Fin PI
  | PInf, Fin _ => Fin (PI / 2)
  | NInf, Fin _ => Fin (- (PI / 2))
  | PInf, PInf => Fin (PI / 4)
  | PInf, NInf => Fin (3 * PI / 4)
  | NInf, PInf => Fin (- (PI / 4))
  | NInf, NInf => Fin (- (3 * PI / 4))
  end.

End JS.

Import JS.

Declare Scope js_scope.
Delimit Scope js_scope with js.
Bind Scope js_scope with num.
Infix "+" := add : js_scope.
Infix "-" := sub : js_scope.
Infix "*" := mul : js_scope.
Infix "/" := div : js_scope.
Infix "%%" := rem (at level 40, left associativity) : js_scope.
Infix "<?" := lt (at level 70, no associativity) : js_scope.
Infix "<=?" := le (at level 70, no associativity) : js_scope.
Infix ">?" := gt (at level 70, no associativity) : js_scope.
Notation "- a" := (neg a) : js_scope.

(** Numeric literals of the source. *)
Coercion Fin : R >-> num.

(* ================================================================= *)
(** ** DRModule.jsx: state of the component *)

(** A point [{ x, y }]. *)
Record Point : Type := mkPoint { x : num; y : num }.

(** An object [{ x, y, z }] or [{ alpha, beta, gamma }] as a sensor event
    carries it: every property may be [null]. *)
Record Triple (A : Type) : Type := mkTriple { fst3 : A; snd3 : A; thd3 : A }.
Arguments mkTriple {A}.
Arguments fst3 {A}.
Arguments snd3 {A}.
Arguments thd3 {A}.

(** [compassFilterRef.current] *)
Record CompassFilter : Type := mkCompassFilter {
  lastValue : option num;
  alpha : num
}.

(** The state cells ([useState]) and references ([useRef]) that the sensor
    callbacks and [clearPath] touch.  [gpsLocation], [gpsError],
    [isMonitoring], [error] and [watchIdRef] belong to the session wiring
    and are not read or written by these functions. *)
Record DRState : Type := mkDRState {
  accelerometerData : option (Triple value);
  gyroscopeData : option (Triple num);
  velocity : Point;
  position : Point;
  path : list Point;
  heading : num;
  isCalibrating : bool;
  velRef : Point;
  posRef : Point;
  pathRef : list Point;
  headingRef : num;
  lastTimestampRef : option num;
  stationaryCountRef : nat;
  accelBiasRef : Point;
  compassFilterRef : CompassFilter
}.

Definition origin : Point := mkPoint 0 0.

(** The state after the first render: lines 12-39. *)
Definition initialState : DRState :=
  {| accelerometerData := None;
     gyroscopeData := None;
     velocity := origin;
     position := origin;
     path := [origin];
     heading := 0;
     isCalibrating := false;
     velRef := origin;
     posRef := origin;
     pathRef := [origin];
     headingRef := 0;
     lastTimestampRef := None;
     stationaryCountRef := 0%nat;
     accelBiasRef := origin;
     compassFilterRef := mkCompassFilter None 0.2 |}.

(** *** Assignments *)

Definition setAccelerometerData (v : option (Triple value)) (s : DRState) :=
  mkDRState v (gyroscopeData s) (velocity s) (position s) (path s)
    (heading s) (isCalibrating s) (velRef s) (posRef s) (pathRef s)
    (headingRef s) (lastTimestampRef s) (stationaryCountRef s)
    (accelBiasRef s) (compassFilterRef s).

Definition setGyroscopeData (v : option (Triple num)) (s : DRState) :=
  mkDRState (accelerometerData s) v (velocity s) (position s) (path s)
    (heading s) (isCalibrating s) (velRef s) (posRef s) (pathRef s)
    (headingRef s) (lastTimestampRef s) (stationaryCountRef s)
    (accelBiasRef s) (compassFilterRef s).

Definition setVelocity (v : Point) (s : DRState) :=
  mkDRState (accelerometerData s) (gyroscopeData s) v (position s) (path s)
    (heading s) (isCalibrating s) (velRef s) (posRef s) (pathRef s)
    (headingRef s) (lastTimestampRef s) (stationaryCountRef s)
    (accelBiasRef s) (compassFilterRef s).

Definition setPosition (v : Point) (s : DRState) :=
  mkDRState (accelerometerData s) (gyroscopeData s) (velocity s) v (path s)
    (heading s) (isCalibrating s) (velRef s) (posRef s) (pathRef s)
    (headingRef s) (lastTimestampRef s) (stationaryCountRef s)
    (accelBiasRef s) (compassFilterRef s).

Definition setPath (v : list Point) (s : DRState) :=
  mkDRState (accelerometerData s) (gyroscopeData s) (velocity s) (position s)
    v (heading s) (isCalibrating s) (velRef s) (posRef s) (pathRef s)
    (headingRef s) (lastTimestampRef s) (stationaryCountRef s)
    (accelBiasRef s) (compassFilterRef s).

Definition setHeading (v : num) (s : DRState) :=
  mkDRState (accelerometerData s) (gyroscopeData s) (velocity s) (position s)
    (path s) v (isCalibrating s) (velRef s) (posRef s) (pathRef s)
    (headingRef s) (lastTimestampRef s) (stationaryCountRef s)
    (accelBiasRef s) (compassFilterRef s).

Definition setIsCalibrating (v : bool) (s : DRState) :=
  mkDRState (accelerometerData s) (gyroscopeData s) (velocity s) (position s)
    (path s) (heading s) v (velRef s) (posRef s) (pathRef s)
    (headingRef s) (lastTimestampRef s) (stationaryCountRef s)
    (accelBiasRef s) (compassFilterRef s).

Definition assign_velRef (v : Point) (s : DRState) :=
  mkDRState (accelerometerData s) (gyroscopeData s) (velocity s) (position s)
    (path s) (heading s) (isCalibrating s) v (posRef s) (pathRef s)
    (headingRef s) (lastTimestampRef s) (stationaryCountRef s)
    (accelBiasRef s) (compassFilterRef s).

Definition assign_posRef (v : Point) (s : DRState) :=
  mkDRState (accelerometerData s) (gyroscopeData s) (velocity s) (position s)
    (path s) (heading s) (isCalibrating s) (velRef s) v (pathRef s)
    (headingRef s) (lastTimestampRef s) (stationaryCountRef s)
    (accelBiasRef s) (compassFilterRef s).

Definition assign_pathRef (v : list Point) (s : DRState) :=
  mkDRState (accelerometerData s) (gyroscopeData s) (velocity s) (position s)
    (path s) (heading s) (isCalibrating s) (velRef s) (posRef s) v
    (headingRef s) (lastTimestampRef s) (stationaryCountRef s)
    (accelBiasRef s) (compassFilterRef s).

Definition assign_headingRef (v : num) (s : DRState) :=
  mkDRState (accelerometerData s) (gyroscopeData s) (velocity s) (position s)
    (path s) (heading s) (isCalibrating s) (velRef s) (posRef s) (pathRef s)
    v (lastTimestampRef s) (stationaryCountRef s)
    (accelBiasRef s) (compassFilterRef s).

Definition assign_lastTimestampRef (v : option num) (s : DRState) :=
  mkDRState (accelerometerData s) (gyroscopeData s) (velocity s) (position s)
    (path s) (heading s) (isCalibrating s) (velRef s) (posRef s) (pathRef s)
    (headingRef s) v (stationaryCountRef s)
    (accelBiasRef s) (compassFilterRef s).

Definition assign_stationaryCountRef (v : nat) (s : DRState) :=
  mkDRState (accelerometerData s) (gyroscopeData s) (velocity s) (position s)
    (path s) (heading s) (isCalibrating s) (velRef s) (posRef s) (pathRef s)
    (headingRef s) (lastTimestampRef s) v
    (accelBiasRef s) (compassFilterRef s).

Definition assign_accelBiasRef (v : Point) (s : DRState) :=
  mkDRState (accelerometerData s) (gyroscopeData s) (velocity s) (position s)
    (path s) (heading s) (isCalibrating s) (velRef s) (posRef s) (pathRef s)
    (headingRef s) (lastTimestampRef s) (stationaryCountRef s)
    v (compassFilterRef s).

Definition assign_compassFilterRef (v : CompassFilter) (s : DRState) :=
  mkDRState (accelerometerData s) (gyroscopeData s) (velocity s) (position s)
    (path s) (heading s) (isCalibrating s) (velRef s) (posRef s) (pathRef s)
    (headingRef s) (lastTimestampRef s) (stationaryCountRef s)
    (accelBiasRef s) v.

(** The four mirroring effects of lines 42-53, run when React commits a
    render after a state cell changed. *)
Definition commit (s : DRState) : DRState :=
  assign_headingRef (heading s)
    (assign_pathRef (path s)
       (assign_posRef (position s)
          (assign_velRef (velocity s) s))).

(* ================================================================= *)
(** ** DRModule.jsx: sensor events *)

Module OrientationEvent.
(** A [deviceorientation] event. *)
Record t : Type := mk {
  alpha : value;
  beta : value;
  gamma : value;
  webkitCompassHeading : value
}.
End OrientationEvent.

Module MotionEvent.
(** A [devicemotion] event; [acceleration] is [None] when the property is
    [null]. *)
Record t : Type := mk {
  accelerationIncludingGravity : option (Triple value);
  rotationRate : option (Triple value);
  acceleration : option (Triple value);
  timeStamp : value
}.
End MotionEvent.

(** What the callbacks read from the host besides the event:
    [window.screen.orientation.angle] ([None] when [window.screen] or its
    [orientation] is missing) and the value of [performance.now()]. *)
Record Host : Type := mkHost {
  screenOrientationAngle : option num;
  performanceNow : num
}.

(* ================================================================= *)
(** ** handleDeviceOrientation (lines 56-121) *)

Definition degToRad : num := (Math_PI / 180)%js.
Definition radToDeg : num := (180 / Math_PI)%js.

(** Lines 72-89: the heading before filtering. *)
Definition tiltCompensate (alpha beta gamma : num) : num :=
  if (Math_abs beta >? 5)%js || (Math_abs gamma >? 5)%js then
    let betaRad := (beta * degToRad)%js in
    let gammaRad := (gamma * degToRad)%js in
    let cosB := Math_cos betaRad in
    let sinB := Math_sin betaRad in
    let cosG := Math_cos gammaRad in
    let sinG := Math_sin gammaRad in
    let compensatedHeading :=
      (Math_atan2
         (sinG * cosB * Math_cos ((alpha * Math_PI) / 180)
          + sinB * Math_sin ((alpha * Math_PI) / 180))
         (cosG * Math_cos ((alpha * Math_PI) / 180))
       * radToDeg)%js in
    ((compensatedHeading + 360) %% 360)%js
  else alpha.

(** Lines 92-101: the filter reference and the heading after filtering. *)
Definition lowPass (f : CompassFilter) (compensatedHeading : num)
  : CompassFilter * num :=
  match lastValue f with
  | None => (mkCompassFilter (Some compensatedHeading) (alpha f),
             compensatedHeading)
  | Some last =>
      let a := alpha f in
      let filtered := (a * compensatedHeading + (1 - a) * last)%js in
      (mkCompassFilter (Some filtered) (alpha f), filtered)
  end.

(** Lines 104-109: iOS against Android. *)
Definition platformNormalize (h : Host) (event : OrientationEvent.t)
    (compensatedHeading : num) : num :=
  if defined (OrientationEvent.webkitCompassHeading event) then
    (360 - compensatedHeading)%js
  else
    match screenOrientationAngle h with
    | Some angle =>
        let screenOrientation := num_or angle 0 in
        ((compensatedHeading + screenOrientation) %% 360)%js
    | None => compensatedHeading
    end.

(** The 2 s timer that clears [isCalibrating] again (line 116) is a
    separate, later task of the host and is not part of this step. *)
Definition handleDeviceOrientation (h : Host) (s : DRState)
    (event : OrientationEvent.t) : DRState :=
  let alpha := nullish (OrientationEvent.alpha event)
                 (OrientationEvent.webkitCompassHeading event) in
  let beta := OrientationEvent.beta event in
  let gamma := OrientationEvent.gamma event in
  match number_not_NaN alpha, number_not_NaN beta, number_not_NaN gamma with
  | Some alpha, Some beta, Some gamma =>
      let compensatedHeading := tiltCompensate alpha beta gamma in
      let (filter, compensatedHeading) :=
        lowPass (compassFilterRef s) compensatedHeading in
      let s := assign_compassFilterRef filter s in
      let compensatedHeading := platformNormalize h event compensatedHeading in
      let variationThreshold : num := 20 in
      let previousHeading := headingRef s in
      let s :=
        if (Math_abs (compensatedHeading - previousHeading)
            >? variationThreshold)%js
        then setIsCalibrating true s else s in
      setHeading compensatedHeading s
  | _, _, _ => s
  end.

(* ================================================================= *)
(** ** handleDeviceMotion (lines 124-212) *)

Definition stationaryThreshold : num := 0.12.
Definition stationarySamplesRequired : nat := 6.
Definition deadzone : num := 0.05.
Definition damping : num := 1.

(** Lines 126-139: the raw readings kept for display. *)
Definition showSensors (s : DRState) (event : MotionEvent.t) : DRState :=
  let s :=
    match MotionEvent.accelerationIncludingGravity event with
    | Some g =>
        setAccelerometerData (Some (mkTriple (fst3 g) (snd3 g) (thd3 g))) s
    | None => s
    end in
  match MotionEvent.rotationRate event with
  | Some r =>
      setGyroscopeData
        (Some (mkTriple (or (fst3 r) 0 * radToDeg)%js
                        (or (snd3 r) 0 * radToDeg)%js
                        (or (thd3 r) 0 * radToDeg)%js)) s
  | None => s
  end.

(** Lines 145-146. *)
Definition timestampOf (h : Host) (event : MotionEvent.t) : num :=
  match MotionEvent.timeStamp event with
  | Num n => n
  | Undefined | Null => performanceNow h
  end.

(** Line 152. *)
Definition deltaTimeOf (now last : num) : num := ((now - last) / 1000)%js.

(** Line 153: the sample is dropped. *)
Definition tooSoon (deltaTime : num) : bool :=
  (deltaTime <=? 0)%js || (deltaTime <? 0.001)%js.

(** Lines 164-168. *)
Definition countStationary (axRaw ayRaw : num) (s : DRState) : DRState :=
  let accMag2D := Math_hypot axRaw ayRaw in
  if (accMag2D <? stationaryThreshold)%js
  then assign_stationaryCountRef (S (stationaryCountRef s)) s
  else assign_stationaryCountRef 0%nat s.

(** Lines 171-174: the branch taken when the device is at rest. *)
Definition stationaryUpdate (axRaw ayRaw : num) (s : DRState) : DRState :=
  let bias := accelBiasRef s in
  let s :=
    assign_accelBiasRef
      (mkPoint (x bias * 0.8 + axRaw * 0.2)%js
               (y bias * 0.8 + ayRaw * 0.2)%js) s in
  let s := assign_velRef (mkPoint 0 0) s in
  setVelocity (velRef s) s.

(** Lines 184-185. *)
Definition applyDeadzone (unbiased : num) : num :=
  if (Math_abs unbiased >? deadzone)%js then unbiased else 0.

(** Lines 188-190: device frame to world frame. *)
Definition headingRadOf (s : DRState) : num :=
  (num_or (headingRef s) 0 * degToRad)%js.

Definition worldAxOf (headingRad ax ay : num) : num :=
  (ax * Math_cos headingRad + ay * Math_sin headingRad)%js.

Definition worldAyOf (headingRad ax ay : num) : num :=
  (- ax * Math_sin headingRad + ay * Math_cos headingRad)%js.

(** Lines 194-197. *)
Definition dampedVelocity (v worldA deltaTime : num) : num :=
  ((v + worldA * deltaTime) * Math_exp (- damping * deltaTime))%js.

(** Lines 179-211: bias correction, deadzone, rotation and the two
    integrations. *)
Definition integrate (axRaw ayRaw deltaTime : num) (s : DRState) : DRState :=
  let axUnbiased := (axRaw - x (accelBiasRef s))%js in
  let ayUnbiased := (ayRaw - y (accelBiasRef s))%js in
  let ax := applyDeadzone axUnbiased in
  let ay := applyDeadzone ayUnbiased in
  let headingRad := headingRadOf s in
  let worldAx := worldAxOf headingRad ax ay in
  let worldAy := worldAyOf headingRad ax ay in
  let newVelX := dampedVelocity (x (velRef s)) worldAx deltaTime in
  let newVelY := dampedVelocity (y (velRef s)) worldAy deltaTime in
  let newPosX := (x (posRef s) + newVelX * deltaTime)%js in
  let newPosY := (y (posRef s) + newVelY * deltaTime)%js in
  let s := assign_velRef (mkPoint newVelX newVelY) s in
  let s := assign_posRef (mkPoint newPosX newPosY) s in
  let s := setVelocity (velRef s) s in
  let s := setPosition (posRef s) s in
  let newPath := pathRef s ++ [mkPoint newPosX newPosY] in
  let s := assign_pathRef newPath s in
  setPath newPath s.

Definition handleDeviceMotion (h : Host) (s : DRState)
    (event : MotionEvent.t) : DRState :=
  let s := showSensors s event in
  match MotionEvent.acceleration event with
  | None => s
  | Some acc =>
      let now := timestampOf h event in
      match lastTimestampRef s with
      | None => assign_lastTimestampRef (Some now) s
      | Some last =>
          let deltaTime := deltaTimeOf now last in
          if tooSoon deltaTime then s
          else
            let s := assign_lastTimestampRef (Some now) s in
            let axRaw := or (fst3 acc) 0 in
            let ayRaw := or (snd3 acc) 0 in
            let s := countStationary axRaw ayRaw s in
            if (stationarySamplesRequired <=? stationaryCountRef s)%nat
            then stationaryUpdate axRaw ayRaw s
            else integrate axRaw ayRaw deltaTime s
      end
  end.

(* ================================================================= *)
(** ** clearPath (lines 263-268) *)

Definition clearPath (s : DRState) : DRState :=
  let s := setVelocity (mkPoint 0 0) s in
  let s := setPosition (mkPoint 0 0) s in
  let s := setPath [mkPoint 0 0] s in
  assign_lastTimestampRef None s.

(* ================================================================= *)
(** ** Runs of motion samples *)

(** A motion sample is accepted in state [s] when it reaches the
    stationary detection of line 159: it carries an acceleration, a
    timestamp baseline exists, and line 153 does not drop it. *)
Definition accepted (h : Host) (s : DRState) (event : MotionEvent.t) : bool :=
  match MotionEvent.acceleration event, lastTimestampRef s with
  | Some _, Some last =>
      negb (tooSoon (deltaTimeOf (timestampOf h event) last))
  | _, _ => false
  end.

(** The raw readings of lines 156-157 and their magnitude. *)
Definition axRawOf (event : MotionEvent.t) : num :=
  match MotionEvent.acceleration event with
  | Some acc => or (fst3 acc) 0
  | None => 0
  end.

Definition ayRawOf (event : MotionEvent.t) : num :=
  match MotionEvent.acceleration event with
  | Some acc => or (snd3 acc) 0
  | None => 0
  end.

Definition belowThreshold (event : MotionEvent.t) : bool :=
  (Math_hypot (axRawOf event) (ayRawOf event) <? stationaryThreshold)%js.

(** Every sample of the list is accepted in the state it meets and is
    below the stationary threshold; a render may be committed after any of
    them (the flag paired with the sample). *)
Fixpoint quietRun (h : Host) (s : DRState)
    (l : list (MotionEvent.t * bool)) : Prop :=
  match l with
  | [] => True
  | (event, render) :: l' =>
      accepted h s event = true /\ belowThreshold event = true /\
      quietRun h
        (if render then commit (handleDeviceMotion h s event)
         else handleDeviceMotion h s event) l'
  end.

Fixpoint feed (h : Host) (s : DRState)
    (l : list (MotionEvent.t * bool)) : DRState :=
  match l with
  | [] => s
  | (event, render) :: l' =>
      feed h
        (if render then commit (handleDeviceMotion h s event)
         else handleDeviceMotion h s event) l'
  end.

(* ================================================================= *)
(** ** PathVisualizer.jsx *)

(** The [gpsLocation] object built at DRModule.jsx lines 291-296. *)
Record GpsLocation : Type := mkGpsLocation {
  latitude : num;
  longitude : num;
  accuracy : num;
  timestamp : num
}.

(** A map coordinate [[lat, lon]]. *)
Definition LatLon : Type := (num * num)%type.

Record PVState : Type := mkPVState {
  drPathCoords : list LatLon;
  gpsPathCoords : list LatLon;
  mapCenter : LatLon;
  initialCenter : option LatLon
}.

Definition pvInitial : PVState :=
  mkPVState [] [] (Fin 0, Fin 0) None.

Definition metersPerLatDegree : num := 111320.

Definition metersPerLonDegreeAt (originLat : num) : num :=
  (111320 * Math_cos ((originLat * Math_PI) / 180))%js.

(** Lines 52-71: the trace handed to [setDrPathCoords]. *)
Definition projectPath (path : list Point) (gpsLocation : option GpsLocation)
  : list LatLon :=
  match gpsLocation with
  | None => []
  | Some g =>
      if (length path <? 2)%nat then []
      else
        let originLat := latitude g in
        let originLon := longitude g in
        let metersPerLonDegree := metersPerLonDegreeAt originLat in
        map (fun p =>
               let lat := (originLat + y p / metersPerLatDegree)%js in
               let lon := (originLon + x p / metersPerLonDegree)%js in
               (lat, lon)) path
  end.

(** The effect of lines 51-80. *)
Definition projectEffect (path : list Point)
    (gpsLocation : option GpsLocation) (s : PVState) : PVState :=
  let coords := projectPath path gpsLocation in
  let s := mkPVState coords (gpsPathCoords s) (mapCenter s) (initialCenter s) in
  match initialCenter s, coords with
  | None, c :: _ => mkPVState (drPathCoords s) (gpsPathCoords s) c (Some c)
  | _, _ => s
  end.

(** Lines 91-99: the distance in metres of a stored point to the new one,
    the longitude scaled at the stored point's latitude. *)
Definition flatDistance (point newPoint : LatLon) : num :=
  Math_sqrt
    (Math_pow ((fst point - fst newPoint) * 111320) 2
     + Math_pow ((snd point - snd newPoint) * 111320
                 * Math_cos ((fst point * Math_PI) / 180)) 2)%js.

(** Lines 90-101. *)
Definition isDuplicate (prev : list LatLon) (newPoint : LatLon) : bool :=
  existsb (fun point => (flatDistance point newPoint <? 0.5)%js) prev.

(** Lines 88-105: the updater handed to [setGpsPathCoords]. *)
Definition ingestGroundTruth (prev : list LatLon) (newPoint : LatLon)
  : list LatLon :=
  if isDuplicate prev newPoint then prev else prev ++ [newPoint].

(** The effect of lines 83-109. *)
Definition trackEffect (gpsLocation : option GpsLocation) (s : PVState)
  : PVState :=
  match gpsLocation with
  | None => s
  | Some g =>
      let newPoint := (latitude g, longitude g) in
      mkPVState (drPathCoords s)
        (ingestGroundTruth (gpsPathCoords s) newPoint)
        newPoint (initialCenter s)
  end.

(* ================================================================= *)
(** ** Sample inputs *)

Definition host0 : Host := mkHost None 0.

Definition noReading : Triple value := mkTriple (Num 0) (Num 0) (Num 0).

(** A motion sample with the given acceleration and timestamp. *)
Definition motionAt (acc : Triple value) (t : R) : MotionEvent.t :=
  MotionEvent.mk None None (Some acc) (Num t).

(** The initial state once a first sample at time [t] has seeded the
    timestamp baseline. *)
Definition seededAt (t : R) : DRState :=
  assign_lastTimestampRef (Some (Fin t)) initialState.

(** Five quiet samples, ten milliseconds apart, some followed by a render. *)
Definition quietSamples : list (MotionEvent.t * bool) :=
  [ (motionAt noReading 10, true); (motionAt noReading 20, false);
    (motionAt noReading 30, true); (motionAt noReading 40, true);
    (motionAt noReading 50, false) ].

(** A device moving at 1 m/s along x, its baseline seeded at time 0.
    The state is written down directly, not reached by a run: it only
    instantiates theorems that hold for every state. *)
Definition movingAlongX : DRState :=
  assign_velRef (mkPoint 1 0) (seededAt 0).

(** A sample one second later whose [acceleration.x] is missing. *)
Definition sampleWithoutX : MotionEvent.t :=
  motionAt (mkTriple Undefined (Num 0) (Num 0)) 1000.

(** A sample one second later whose [acceleration.x] is [Infinity]. *)
Definition sampleWithInfiniteX : MotionEvent.t :=
  motionAt (mkTriple (Num PInf) (Num 0) (Num 0)) 1000.

(** A sample one second later with a small x and a large y reading. *)
Definition sampleSmallX : MotionEvent.t :=
  motionAt (mkTriple (Num 0.03) (Num 1) (Num 0)) 1000.

(** An iOS compass event of a level device pointing north. *)
Definition iosNorth : OrientationEvent.t :=
  OrientationEvent.mk (Num 0) (Num 0) (Num 0) (Num 0).

(** The heading lies in the half-open interval from 0 to 360. *)
Definition inRange360 (n : num) : bool := (0 <=? n)%js && (n <? 360)%js.

(** Whether an accepted sample goes through the integration of lines
    178-211 (the stationary branch of line 170 is not taken). *)
Definition integrated (h : Host) (s : DRState) (event : MotionEvent.t)
  : bool :=
  accepted h s event &&
  negb (stationarySamplesRequired
        <=? stationaryCountRef
              (countStationary (axRawOf event) (ayRawOf event) s))%nat.

(** Lines 179-180 for the sample [event] met in state [s]. *)
Definition axUnbiasedOf (s : DRState) (event : MotionEvent.t) : num :=
  (axRawOf event - x (accelBiasRef s))%js.

Definition ayUnbiasedOf (s : DRState) (event : MotionEvent.t) : num :=
  (ayRawOf event - y (accelBiasRef s))%js.

(** The elapsed time of line 152 for the sample [event] met in state [s]. *)
Definition elapsed (h : Host) (s : DRState) (event : MotionEvent.t) : num :=
  match lastTimestampRef s with
  | Some last => deltaTimeOf (timestampOf h event) last
  | None => NaN
  end.

(** An acceleration property that line 156 or 157 reads as [0] although
    it holds no number. *)
Definition missingOrNaN (v : value) : bool :=
  match v with
  | Undefined | Null | Num NaN => true
  | Num _ => false
  end.

(** The flat-Earth distance in metres between two points given in
    degrees, the longitude scaled at the latitude of the first one. *)
Definition flatEarthMeters (p q : R * R) : R :=
  sqrt (((fst p - fst q) * 111320) ^ 2
        + ((snd p - snd q) * 111320 * cos (fst p * PI / 180)) ^ 2).

Definition latLon (p : R * R) : LatLon := (Fin (fst p), Fin (snd p)).

(* ================================================================= *)
(** ** Runs of the component *)

(** What can happen to the component between two renders. *)
Inductive Action : Type :=
| Motion (event : MotionEvent.t)
| Orientation (event : OrientationEvent.t)
| Render
| ClearPath.

Definition step (h : Host) (s : DRState) (a : Action) : DRState :=
  match a with
  | Motion event => handleDeviceMotion h s event
  | Orientation event => handleDeviceOrientation h s event
  | Render => commit s
  | ClearPath => clearPath s
  end.

Definition run (h : Host) (s : DRState) (l : list Action) : DRState :=
  fold_left (step h) l s.

Definition isClearPath (a : Action) : bool :=
  match a with ClearPath => true | _ => false end.

(** The three motion references hold what their state cells hold. *)
Definition motionSynced (s : DRState) : Prop :=
  velRef s = velocity s /\ posRef s = position s /\ pathRef s = path s.

(** The path cell is not empty and ends at the position cell. *)
Definition pathEndsAtPosition (s : DRState) : Prop :=
  exists front, path s = front ++ [position s].

(** *** Finite numbers *)

Definition finite (n : num) : bool :=
  match n with Fin _ => true | _ => false end.

Definition finitePoint (p : Point) : bool := finite (x p) && finite (y p).

Definition finiteOption (o : option num) : bool :=
  match o with Some n => finite n | None => true end.

(** Every number of the dead-reckoning state is finite. *)
Definition finiteState (s : DRState) : bool :=
  finitePoint (velocity s) && finitePoint (position s) &&
  forallb finitePoint (path s) && finite (heading s) &&
  finitePoint (velRef s) && finitePoint (posRef s) &&
  forallb finitePoint (pathRef s) && finite (headingRef s) &&
  finiteOption (lastTimestampRef s) && finitePoint (accelBiasRef s) &&
  finiteOption (lastValue (compassFilterRef s)) &&
  finite (alpha (compassFilterRef s)).

(** A property that is missing, NaN or a finite number: anything but one
    of the two infinities. *)
Definition notInfinite (v : value) : bool :=
  match v with
  | Num PInf | Num NInf => false
  | _ => true
  end.

Definition finiteHost (h : Host) : bool :=
  finiteOption (screenOrientationAngle h) && finite (performanceNow h).

(** The readings of an action that the handlers use are not infinite, and
    the timestamp of a motion sample is not NaN either. *)
Definition finiteAction (h : Host) (a : Action) : bool :=
  match a with
  | Motion event =>
      finite (timestampOf h event) &&
      match MotionEvent.acceleration event with
      | Some acc => notInfinite (fst3 acc) && notInfinite (snd3 acc)
      | None => true
      end
  | Orientation event =>
      notInfinite (nullish (OrientationEvent.alpha event)
                     (OrientationEvent.webkitCompassHeading event)) &&
      notInfinite (OrientationEvent.beta event) &&
      notInfinite (OrientationEvent.gamma event)
  | Render | ClearPath => true
  end.

(** *** The compass filter *)

(** The filter has the coefficient it starts with and holds no value or a
    finite one in the range from 0 to 360. *)
Definition filterInRange (f : CompassFilter) : Prop :=
  alpha f = Fin 0.2 /\
  (lastValue f = None \/
   exists l : R, lastValue f = Some (Fin l) /\ 0 <= l < 360).

(** The readings of an orientation event are what the sensor interface
    promises when they are numbers: finite, the azimuth from 0 to 360. *)
Definition sensorRange (event : OrientationEvent.t) : Prop :=
  (forall a, number_not_NaN (nullish (OrientationEvent.alpha event)
                               (OrientationEvent.webkitCompassHeading event))
             = Some a -> exists r : R, a = Fin r /\ 0 <= r < 360) /\
  (forall b, number_not_NaN (OrientationEvent.beta event) = Some b ->
             finite b = true) /\
  (forall g, number_not_NaN (OrientationEvent.gamma event) = Some g ->
             finite g = true).

(** *** The ground-truth trace over a stream of fixes *)

(** The trace after the effect of lines 83-109 has run once per fix. *)
Definition traceFrom (stored : list LatLon) (fixes : list LatLon)
  : list LatLon :=
  fold_left ingestGroundTruth fixes stored.

(** Every point is at least 0.5 m away from every point stored before it,
    measured from the earlier point. *)
Fixpoint separated (l : list (R * R)) : Prop :=
  match l with
  | [] => True
  | p :: l' => Forall (fun q => 0.5 <= flatEarthMeters p q) l' /\ separated l'
  end.

(** *** Starting and stopping the sensors (lines 215-260) *)

Module Monitoring.
Import String.

(** What [requestPermission] of an event class does: the class has no
    such function, the promise resolves with an answer, or it rejects
    with an error carrying a message. *)
Inductive Permission : Type :=
| NoRequestFunction
| Resolves (answer : string)
| Rejects (message : string).

(** The component around the dead-reckoning state: the cells
    [isMonitoring] and [error] and the two listeners on [window]. *)
Record Session : Type := mkSession {
  dr : DRState;
  isMonitoring : bool;
  error : option string;
  motionListener : bool;
  orientationListener : bool
}.

Definition deniedMessage : string :=
  "Permission to access one or more sensors was denied."%string.

Definition startFailedMessage (message : string) : string :=
  append "Error starting sensor monitoring: "%string message.

(** Lines 222-229 and 231-239: whether the permission is granted, or the
    message of the error when the request throws. *)
Definition askPermission (p : Permission) : bool + string :=
  match p with
  | NoRequestFunction => inl true
  | Resolves answer => inl (String.eqb answer "granted"%string)
  | Rejects message => inr message
  end.

(** [startMonitoring], the waits on the two promises taken as one step. *)
Definition startMonitoring (motion orientation : Permission) (c : Session)
  : Session :=
  let c := mkSession (assign_lastTimestampRef None (dr c)) (isMonitoring c)
             None (motionListener c) (orientationListener c) in
  match askPermission motion with
  | inr message =>
      mkSession (dr c) (isMonitoring c) (Some (startFailedMessage message))
        (motionListener c) (orientationListener c)
  | inl motionGranted =>
      match askPermission orientation with
      | inr message =>
          mkSession (dr c) (isMonitoring c)
            (Some (startFailedMessage message))
            (motionListener c) (orientationListener c)
      | inl orientationGranted =>
          if motionGranted && orientationGranted
          then mkSession (dr c) true (error c) true true
          else mkSession (dr c) (isMonitoring c) (Some deniedMessage)
                 (motionListener c) (orientationListener c)
      end
  end.

(** [stopMonitoring] *)
Definition stopMonitoring (c : Session) : Session :=
  mkSession (assign_lastTimestampRef None (dr c)) false (error c)
    false false.

(** A [devicemotion] event reaches the handler only through the
    listener. *)
Definition dispatchMotion (h : Host) (c : Session) (event : MotionEvent.t)
  : Session :=
  if motionListener c
  then mkSession (handleDeviceMotion h (dr c) event) (isMonitoring c)
         (error c) (motionListener c) (orientationListener c)
  else c.

(** Two answers of a permission prompt. *)
Definition answersGranted : Permission := Resolves "granted".
Definition answersDenied : Permission := Resolves "denied".

End Monitoring.

(** *** Conditions on the actions of a run *)

(** The orientation events of a run keep to the sensor's ranges. *)
Definition inSensorRange (a : Action) : Prop :=
  match a with
  | Orientation event => sensorRange event
  | _ => True
  end.

(** The screen angle, when the host has one, is finite and not negative. *)
Definition screenAngleOk (h : Host) : Prop :=
  screenOrientationAngle h = None \/
  exists angle : R, screenOrientationAngle h = Some (Fin angle) /\ 0 <= angle.

(** The filter is in its range and the heading cell holds a finite value
    from 0 to 360, both ends included. *)
Definition headingBounded (s : DRState) : Prop :=
  filterInRange (compassFilterRef s) /\
  exists c : R, heading s = Fin c /\ 0 <= c <= 360.

(** A device that has been quiet for five samples, with a bias estimate
    of 0.1 along x and its baseline at time 0. *)
Definition restingState : DRState :=
  assign_stationaryCountRef 5
    (assign_accelBiasRef (mkPoint 0.1 0) (seededAt 0)).


(** A strong reading along both axes. *)
Definition sampleTriple : Triple value := mkTriple (Num 2) (Num 3) (Num 0).

(** The path cell and the path reference both begin with the origin. *)
Definition startsAtOrigin (s : DRState) : Prop :=
  (exists rest, path s = mkPoint 0 0 :: rest) /\
  (exists rest, pathRef s = mkPoint 0 0 :: rest).

(* ================================================================= *)
(** ** The rotation of lines 188-190 on binary64 numbers *)

(** The same three lines on the kernel's binary64 floats, with the
    rounding of every product and sum.  [Math.cos] and [Math.sin] belong
    to the host's library, not to the source: their results enter as the
    arguments [cosH] and [sinH]. *)
Module Binary64.
Import PrimFloat.

(** [a === b] on numbers. *)
Definition same (a b : float) : bool := (a =? b)%float.

Definition Math_PI : float := 0x1.921fb54442d18p+1%float.

(** Line 188; [h || 0] is [0] when [h] is zero or NaN. *)
Definition headingRadOf (headingRef : float) : float :=
  let h :=
    if (headingRef =? headingRef)%float && negb (headingRef =? 0)%float
    then headingRef else 0%float in
  (h * (Math_PI / 180))%float.

(** Line 189. *)
Definition worldAxOf (cosH sinH ax ay : float) : float :=
  (ax * cosH + ay * sinH)%float.

(** Line 190. *)
Definition worldAyOf (cosH sinH ax ay : float) : float :=
  (- ax * sinH + ay * cosH)%float.

(** The squared norm [u * u + v * v]. *)
Definition normSq (u v : float) : float := (u * u + v * v)%float.

(** The two squared norms differ. *)
Definition normChanges (cosH sinH ax ay : float) : bool :=
  negb (same (normSq (worldAxOf cosH sinH ax ay) (worldAyOf cosH sinH ax ay))
          (normSq ax ay)).

(** A heading of 90 degrees and the acceleration (1, 1). *)
Definition ninety : float := 90%float.
Definition one : float := 1%float.
Definition two : float := 2%float.

(** 1.5707963267948966, the heading in radians. *)
Definition halfPi : float := 0x1.921fb54442d18p+0%float.

(** 6.123233995736766e-17 and 1: the binary64 numbers nearest to the
    cosine and the sine of [halfPi], which is what a correctly rounded
    library (and V8) returns. *)
Definition cosHalfPi : float := 0x1.1a62633145c07p-54%float.
Definition sinHalfPi : float := 1%float.

(** The same results with an error of one unit in the last place either
    way. *)
Definition nearCosHalfPi : list float :=
  [0x1.1a62633145c06p-54%float; cosHalfPi; 0x1.1a62633145c08p-54%float].
Definition nearSinHalfPi : list float :=
  [0x1.fffffffffffffp-1%float; sinHalfPi; 0x1.0000000000001p+0%float].

(** 1.9999999999999998, the binary64 number just below 2. *)
Definition belowTwo : float := 0x1.fffffffffffffp+0%float.

End Binary64.

(* ================================================================= *)
(** ** Facts about the number model *)

Section NumFacts.

Lemma lt_Fin (a b : R) : (Fin a <? Fin b)%js = true <-> a < b.
Proof.
  unfold lt. destruct (Rlt_dec a b); split; intros; try easy.
Qed.

Lemma le_Fin (a b : R) : (Fin a <=? Fin b)%js = true <-> a <= b.
Proof.
  unfold le. destruct (Rle_dec a b); split; intros; try easy.
Qed.

Lemma lt_Fin_false (a b : R) : (Fin a <? Fin b)%js = false <-> b <= a.
Proof.
  unfold lt. destruct (Rlt_dec a b); split; intros; try easy; lra.
Qed.

Lemma le_Fin_false (a b : R) : (Fin a <=? Fin b)%js = false <-> b < a.
Proof.
  unfold le. destruct (Rle_dec a b); split; intros; try easy; lra.
Qed.

Lemma add_0_l (a : num) : (Fin 0 + a)%js = a.
Proof. destruct a; cbn [add]; try reflexivity. now rewrite Rplus_0_l. Qed.

Lemma add_0_r (a : num) : (a + Fin 0)%js = a.
Proof. destruct a; cbn [add]; try reflexivity. now rewrite Rplus_0_r. Qed.

Lemma truthy_Fin (r : R) : truthy (Fin r) = true <-> r <> 0.
Proof.
  unfold truthy. destruct (Req_dec_T r 0); split; intros; try easy.
Qed.

Lemma num_or_0 : num_or (Fin 0) (Fin 0) = Fin 0.
Proof. unfold num_or. now destruct (truthy (Fin 0)). Qed.

Lemma or_missing (v : value) :
  missingOrNaN v = true -> or v (Fin 0) = Fin 0.
Proof.
  destruct v as [| |[r| | |]]; cbn; try easy.
Qed.

Lemma or_Fin (r : R) : or (Num (Fin r)) (Fin 0) = Fin r.
Proof.
  cbn [or]. unfold num_or, truthy.
  destruct (Req_dec_T r 0); congruence.
Qed.

End NumFacts.

(* ================================================================= *)
(** ** Frame facts of the handlers *)

(** [showSensors] writes the two display cells and nothing else. *)
Lemma showSensors_frame (s : DRState) (event : MotionEvent.t) :
  let s' := showSensors s event in
  velocity s' = velocity s /\ position s' = position s /\
  path s' = path s /\ heading s' = heading s /\
  isCalibrating s' = isCalibrating s /\
  velRef s' = velRef s /\ posRef s' = posRef s /\
  pathRef s' = pathRef s /\ headingRef s' = headingRef s /\
  lastTimestampRef s' = lastTimestampRef s /\
  stationaryCountRef s' = stationaryCountRef s /\
  accelBiasRef s' = accelBiasRef s /\
  compassFilterRef s' = compassFilterRef s.
Proof.
  unfold showSensors.
  destruct (MotionEvent.accelerationIncludingGravity event),
    (MotionEvent.rotationRate event); cbn; repeat split.
Qed.

(** The motion handler on a sample that line 153 drops. *)
Lemma handleDeviceMotion_tooSoon h s event acc last :
  MotionEvent.acceleration event = Some acc ->
  lastTimestampRef s = Some last ->
  tooSoon (deltaTimeOf (timestampOf h event) last) = true ->
  handleDeviceMotion h s event = showSensors s event.
Proof.
  intros Hacc Hlast Hsoon. unfold handleDeviceMotion.
  rewrite Hacc.
  destruct (showSensors_frame s event) as (_&_&_&_&_&_&_&_&_&Hts&_).
  rewrite Hts, Hlast, Hsoon. reflexivity.
Qed.

(** The motion handler on an accepted sample. *)
Lemma handleDeviceMotion_accepted h s event :
  accepted h s event = true ->
  handleDeviceMotion h s event =
    let s1 := assign_lastTimestampRef (Some (timestampOf h event))
                (showSensors s event) in
    let s2 := countStationary (axRawOf event) (ayRawOf event) s1 in
    if (stationarySamplesRequired <=? stationaryCountRef s2)%nat
    then stationaryUpdate (axRawOf event) (ayRawOf event) s2
    else integrate (axRawOf event) (ayRawOf event) (elapsed h s event) s2.
Proof.
  unfold accepted, handleDeviceMotion, axRawOf, ayRawOf, elapsed.
  destruct (showSensors_frame s event) as (_&_&_&_&_&_&_&_&_&Hts&_).
  rewrite Hts.
  destruct (MotionEvent.acceleration event) as [acc|]; [|discriminate].
  destruct (lastTimestampRef s) as [last|]; [|discriminate].
  intros Hok. apply negb_true_iff in Hok. rewrite Hok. reflexivity.
Qed.

Lemma countStationary_frame ax ay s :
  let s' := countStationary ax ay s in
  velocity s' = velocity s /\ position s' = position s /\
  path s' = path s /\ velRef s' = velRef s /\ posRef s' = posRef s /\
  pathRef s' = pathRef s /\ headingRef s' = headingRef s /\
  lastTimestampRef s' = lastTimestampRef s /\
  accelBiasRef s' = accelBiasRef s.
Proof.
  unfold countStationary.
  destruct (Math_hypot ax ay <? stationaryThreshold)%js; cbn; repeat split.
Qed.

(* ================================================================= *)
(** ** Reset *)

(** C6.  [clearPath] (the reset operation) sets the velocity and the
    position cells to the origin, the path cell to the single origin
    point and clears the timestamp baseline; the acceleration bias and the
    stationary sample count are left as they were.  Once React commits
    the render, the mirrored references hold the same zeroed values. *)
Theorem clearPath_resets_motion_keeps_bias (s : DRState) :
  let s' := clearPath s in
  velocity s' = mkPoint 0 0 /\
  position s' = mkPoint 0 0 /\
  path s' = [mkPoint 0 0] /\
  lastTimestampRef s' = None /\
  accelBiasRef s' = accelBiasRef s /\
  stationaryCountRef s' = stationaryCountRef s /\
  velRef (commit s') = mkPoint 0 0 /\
  posRef (commit s') = mkPoint 0 0 /\
  pathRef (commit s') = [mkPoint 0 0] /\
  accelBiasRef (commit s') = accelBiasRef s /\
  stationaryCountRef (commit s') = stationaryCountRef s.
Proof.
  cbn. repeat split.
Qed.

(* ================================================================= *)
(** ** The timestamp guard *)

(** For finite timestamps line 153 drops exactly the samples that come
    less than one millisecond after the baseline. *)
Lemma tooSoon_finite (now last : R) :
  tooSoon (deltaTimeOf (Fin now) (Fin last)) = true <-> now - last < 1.
Proof.
  unfold tooSoon, deltaTimeOf. cbn [sub neg add div].
  destruct (Req_dec_T 1000 0) as [E|_]; [lra|].
  rewrite orb_true_iff, le_Fin, lt_Fin.
  split; [intros [H|H]|intros H; right]; lra.
Qed.

(** C3, as the code has it.  A motion sample that comes at or before the
    baseline, or less than a millisecond after it, changes neither the
    velocity, the position nor the path, and it does not change the
    timestamp baseline either: the baseline stays at the last accepted
    sample. *)
Theorem tooSoon_sample_keeps_baseline h s event acc last :
  MotionEvent.acceleration event = Some acc ->
  lastTimestampRef s = Some last ->
  tooSoon (deltaTimeOf (timestampOf h event) last) = true ->
  let s' := handleDeviceMotion h s event in
  velocity s' = velocity s /\ velRef s' = velRef s /\
  position s' = position s /\ posRef s' = posRef s /\
  path s' = path s /\ pathRef s' = pathRef s /\
  lastTimestampRef s' = Some last.
Proof.
  intros Hacc Hlast Hsoon s'. subst s'.
  rewrite (handleDeviceMotion_tooSoon h s event acc last Hacc Hlast Hsoon).
  destruct (showSensors_frame s event)
    as (Hv&Hp&Hpa&_&_&Hvr&Hpr&Hpar&_&Hts&_).
  rewrite Hv, Hp, Hpa, Hvr, Hpr, Hpar, Hts. repeat split. exact Hlast.
Qed.

Lemma tooSoon_sample_keeps_baseline_witness :
  let s' := handleDeviceMotion host0 (seededAt 1000)
              (motionAt noReading 1000.5) in
  velocity s' = velocity (seededAt 1000) /\
  velRef s' = velRef (seededAt 1000) /\
  position s' = position (seededAt 1000) /\
  posRef s' = posRef (seededAt 1000) /\
  path s' = path (seededAt 1000) /\
  pathRef s' = pathRef (seededAt 1000) /\
  lastTimestampRef s' = Some (Fin 1000).
Proof.
  apply (tooSoon_sample_keeps_baseline host0 (seededAt 1000)
           (motionAt noReading 1000.5) noReading (Fin 1000)).
  - reflexivity.
  - reflexivity.
  - apply tooSoon_finite. lra.
Defined.

(** C3, as first stated, fails: a sample half a millisecond after the
    baseline is dropped and the baseline is not advanced to it. *)
Lemma tooSoon_sample_does_not_advance_baseline :
  tooSoon (deltaTimeOf (timestampOf host0 (motionAt noReading 1000.5))
             (Fin 1000)) = true /\
  lastTimestampRef
    (handleDeviceMotion host0 (seededAt 1000) (motionAt noReading 1000.5))
  <> Some (timestampOf host0 (motionAt noReading 1000.5)).
Proof.
  assert (Hsoon : tooSoon (deltaTimeOf
            (timestampOf host0 (motionAt noReading 1000.5)) (Fin 1000)) = true)
    by (apply tooSoon_finite; lra).
  split; [exact Hsoon|].
  rewrite (handleDeviceMotion_tooSoon host0 (seededAt 1000)
             (motionAt noReading 1000.5) noReading (Fin 1000)
             eq_refl eq_refl Hsoon).
  cbn. intros E. injection E as E. lra.
Qed.

(* ================================================================= *)
(** ** Stationary detection *)

Lemma countStationary_below ax ay s :
  (Math_hypot ax ay <? stationaryThreshold)%js = true ->
  stationaryCountRef (countStationary ax ay s) = S (stationaryCountRef s).
Proof. unfold countStationary. intros ->. reflexivity. Qed.

Lemma stationaryUpdate_count ax ay s :
  stationaryCountRef (stationaryUpdate ax ay s) = stationaryCountRef s.
Proof. reflexivity. Qed.

Lemma integrate_count ax ay dt s :
  stationaryCountRef (integrate ax ay dt s) = stationaryCountRef s.
Proof. reflexivity. Qed.

Lemma commit_count s : stationaryCountRef (commit s) = stationaryCountRef s.
Proof. reflexivity. Qed.

(** An accepted sample below the threshold raises the counter by one,
    whichever branch it then takes. *)
Lemma quiet_sample_counts h s event :
  accepted h s event = true ->
  belowThreshold event = true ->
  stationaryCountRef (handleDeviceMotion h s event)
  = S (stationaryCountRef s).
Proof.
  intros Hacc Hlow. rewrite (handleDeviceMotion_accepted h s event Hacc).
  cbv zeta.
  set (s1 := assign_lastTimestampRef _ _).
  assert (H1 : stationaryCountRef s1 = stationaryCountRef s).
  { subst s1. cbn.
    now destruct (showSensors_frame s event) as (_&_&_&_&_&_&_&_&_&_&Hc&_). }
  pose proof (countStationary_below _ _ s1 Hlow) as Hc.
  destruct (stationarySamplesRequired <=? _)%nat.
  - rewrite stationaryUpdate_count. congruence.
  - rewrite integrate_count. congruence.
Qed.

Lemma quietRun_counts h l : forall s,
  quietRun h s l ->
  stationaryCountRef (feed h s l) = (stationaryCountRef s + length l)%nat.
Proof.
  induction l as [|[event render] l IH]; intros s Hq; cbn [feed length].
  - lia.
  - destruct Hq as (Hacc & Hlow & Hq).
    rewrite (IH _ Hq).
    pose proof (quiet_sample_counts h s event Hacc Hlow) as Hc.
    destruct render; [rewrite commit_count|]; rewrite Hc; lia.
Qed.

(** The stationary branch on an accepted sample. *)
Lemma stationary_branch h s event :
  accepted h s event = true ->
  belowThreshold event = true ->
  (stationarySamplesRequired <= S (stationaryCountRef s))%nat ->
  let s' := handleDeviceMotion h s event in
  velRef s' = mkPoint 0 0 /\ velocity s' = mkPoint 0 0 /\
  position s' = position s /\ posRef s' = posRef s /\
  path s' = path s /\ pathRef s' = pathRef s /\
  accelBiasRef s' =
    mkPoint (x (accelBiasRef s) * 0.8 + axRawOf event * 0.2)%js
            (y (accelBiasRef s) * 0.8 + ayRawOf event * 0.2)%js.
Proof.
  intros Hacc Hlow Hn s'. subst s'.
  rewrite (handleDeviceMotion_accepted h s event Hacc). cbv zeta.
  set (s1 := assign_lastTimestampRef _ _).
  rewrite (countStationary_below _ _ s1 Hlow).
  assert (H1 : stationaryCountRef s1 = stationaryCountRef s).
  { subst s1. cbn.
    now destruct (showSensors_frame s event) as (_&_&_&_&_&_&_&_&_&_&Hc&_). }
  rewrite H1. apply Nat.leb_le in Hn. rewrite Hn.
  destruct (countStationary_frame (axRawOf event) (ayRawOf event) s1)
    as (Hv&Hp&Hpa&Hvr&Hpr&Hpar&_&_&Hb).
  destruct (showSensors_frame s event)
    as (Hv'&Hp'&Hpa'&_&_&Hvr'&Hpr'&Hpar'&_&_&_&Hb'&_).
  unfold stationaryUpdate. cbn [velRef velocity position posRef path pathRef
    accelBiasRef setVelocity assign_velRef assign_accelBiasRef].
  rewrite Hp, Hpr, Hpa, Hpar, Hb. subst s1.
  cbn [position posRef path pathRef accelBiasRef assign_lastTimestampRef].
  rewrite Hp', Hpr', Hpa', Hpar', Hb'. repeat split.
Qed.

(** C4.  After five or more consecutive accepted samples whose raw
    magnitude is below 0.12 (renders may be committed in between), every
    further such sample, the sixth onward, sets the velocity to exactly
    zero, leaves position and path alone, and moves each bias component to
    [0.8 * bias + 0.2 * raw]. *)
Theorem sixth_quiet_sample_is_stationary h s l event :
  (5 <= length l)%nat ->
  quietRun h s l ->
  accepted h (feed h s l) event = true ->
  belowThreshold event = true ->
  let s0 := feed h s l in
  let s' := handleDeviceMotion h s0 event in
  velRef s' = mkPoint 0 0 /\ velocity s' = mkPoint 0 0 /\
  position s' = position s0 /\ posRef s' = posRef s0 /\
  path s' = path s0 /\ pathRef s' = pathRef s0 /\
  accelBiasRef s' =
    mkPoint (x (accelBiasRef s0) * 0.8 + axRawOf event * 0.2)%js
            (y (accelBiasRef s0) * 0.8 + ayRawOf event * 0.2)%js.
Proof.
  intros Hlen Hq Hacc Hlow s0 s'.
  apply stationary_branch; trivial.
  subst s0. rewrite (quietRun_counts h l s Hq).
  unfold stationarySamplesRequired. lia.
Qed.

Lemma accepted_baseline h s event :
  accepted h s event = true ->
  lastTimestampRef (handleDeviceMotion h s event)
  = Some (timestampOf h event).
Proof.
  intros Hacc. rewrite (handleDeviceMotion_accepted h s event Hacc).
  cbv zeta. set (s1 := assign_lastTimestampRef _ _).
  destruct (countStationary_frame (axRawOf event) (ayRawOf event) s1)
    as (_&_&_&_&_&_&_&Hts&_).
  destruct (stationarySamplesRequired <=? _)%nat;
    unfold stationaryUpdate, integrate; cbn; rewrite Hts; reflexivity.
Qed.

Lemma belowThreshold_noReading t :
  belowThreshold (motionAt noReading t) = true.
Proof.
  unfold belowThreshold, axRawOf, ayRawOf, motionAt, noReading.
  cbn [MotionEvent.acceleration fst3 snd3]. rewrite or_Fin.
  unfold Math_hypot, stationaryThreshold. apply lt_Fin.
  replace (0 * 0 + 0 * 0) with 0 by ring. rewrite sqrt_0. lra.
Qed.

(** A sample at least a millisecond after a finite baseline is accepted
    and becomes the new baseline, with or without a render after it. *)
Lemma quiet_step h s (t0 t : R) (render : bool) :
  lastTimestampRef s = Some (Fin t0) ->
  t0 + 1 <= t ->
  accepted h s (motionAt noReading t) = true /\
  belowThreshold (motionAt noReading t) = true /\
  lastTimestampRef
    (if render then commit (handleDeviceMotion h s (motionAt noReading t))
     else handleDeviceMotion h s (motionAt noReading t)) = Some (Fin t).
Proof.
  intros Hts Ht.
  assert (Hacc : accepted h s (motionAt noReading t) = true).
  { unfold accepted. cbn [motionAt MotionEvent.acceleration]. rewrite Hts.
    apply negb_true_iff.
    change (timestampOf h (motionAt noReading t)) with (Fin t).
    destruct (tooSoon (deltaTimeOf (Fin t) (Fin t0))) eqn:E; [|reflexivity].
    apply tooSoon_finite in E. lra. }
  split; [exact Hacc|]. split; [apply belowThreshold_noReading|].
  pose proof (accepted_baseline h s _ Hacc) as Hb.
  destruct render; [|exact Hb].
  unfold commit. cbn. exact Hb.
Qed.

Lemma quietSamples_quiet :
  quietRun host0 (seededAt 0) quietSamples /\
  lastTimestampRef (feed host0 (seededAt 0) quietSamples) = Some (Fin 50).
Proof.
  unfold quietSamples. cbn [quietRun feed].
  destruct (quiet_step host0 (seededAt 0) 0 10 true eq_refl ltac:(lra))
    as (A1 & B1 & C1).
  destruct (quiet_step host0 _ 10 20 false C1 ltac:(lra)) as (A2 & B2 & C2).
  destruct (quiet_step host0 _ 20 30 true C2 ltac:(lra)) as (A3 & B3 & C3).
  destruct (quiet_step host0 _ 30 40 true C3 ltac:(lra)) as (A4 & B4 & C4).
  destruct (quiet_step host0 _ 40 50 false C4 ltac:(lra)) as (A5 & B5 & C5).
  repeat split; assumption.
Qed.

Lemma sixth_quiet_sample_is_stationary_witness :
  let s0 := feed host0 (seededAt 0) quietSamples in
  let s' := handleDeviceMotion host0 s0 (motionAt noReading 60) in
  velRef s' = mkPoint 0 0 /\ velocity s' = mkPoint 0 0 /\
  position s' = position s0 /\ posRef s' = posRef s0 /\
  path s' = path s0 /\ pathRef s' = pathRef s0 /\
  accelBiasRef s' =
    mkPoint (x (accelBiasRef s0) * 0.8
             + axRawOf (motionAt noReading 60) * 0.2)%js
            (y (accelBiasRef s0) * 0.8
             + ayRawOf (motionAt noReading 60) * 0.2)%js.
Proof.
  apply (sixth_quiet_sample_is_stationary host0 (seededAt 0) quietSamples
           (motionAt noReading 60)).
  - cbn. lia.
  - exact (proj1 quietSamples_quiet).
  - exact (proj1 (quiet_step host0 _ 50 60 false
                    (proj2 quietSamples_quiet) ltac:(lra))).
  - apply belowThreshold_noReading.
Defined.

(* ================================================================= *)
(** ** Integration *)

(** What an integrated sample writes. *)
Lemma integrated_branch h s event :
  integrated h s event = true ->
  let ax := applyDeadzone (axUnbiasedOf s event) in
  let ay := applyDeadzone (ayUnbiasedOf s event) in
  let headingRad := headingRadOf s in
  let deltaTime := elapsed h s event in
  let newVel :=
    mkPoint (dampedVelocity (x (velRef s)) (worldAxOf headingRad ax ay)
               deltaTime)
            (dampedVelocity (y (velRef s)) (worldAyOf headingRad ax ay)
               deltaTime) in
  let newPos :=
    mkPoint (x (posRef s) + x newVel * deltaTime)%js
            (y (posRef s) + y newVel * deltaTime)%js in
  let s' := handleDeviceMotion h s event in
  velRef s' = newVel /\ velocity s' = newVel /\
  posRef s' = newPos /\ position s' = newPos /\
  pathRef s' = pathRef s ++ [newPos] /\ path s' = pathRef s ++ [newPos].
Proof.
  unfold integrated. intros H. apply andb_true_iff in H as [Hacc Hint].
  apply negb_true_iff in Hint. cbv zeta.
  rewrite (handleDeviceMotion_accepted h s event Hacc). cbv zeta.
  set (s1 := assign_lastTimestampRef _ _).
  assert (Hc : stationaryCountRef
                 (countStationary (axRawOf event) (ayRawOf event) s1)
               = stationaryCountRef
                   (countStationary (axRawOf event) (ayRawOf event) s)).
  { unfold countStationary.
    destruct (Math_hypot _ _ <? stationaryThreshold)%js; cbn;
      [f_equal|reflexivity].
    now destruct (showSensors_frame s event) as (_&_&_&_&_&_&_&_&_&_&Hc&_). }
  rewrite Hc, Hint.
  destruct (countStationary_frame (axRawOf event) (ayRawOf event) s1)
    as (_&_&_&Hvr&Hpr&Hpar&Hh&_&Hb).
  destruct (showSensors_frame s event)
    as (_&_&_&_&_&Hvr'&Hpr'&Hpar'&Hh'&_&_&Hb'&_).
  unfold integrate, headingRadOf, axUnbiasedOf, ayUnbiasedOf.
  cbn [velRef velocity position posRef path pathRef accelBiasRef headingRef
       setVelocity setPosition setPath assign_velRef assign_posRef
       assign_pathRef x y].
  rewrite Hvr, Hpr, Hpar, Hh, Hb. subst s1.
  cbn [velRef posRef pathRef headingRef accelBiasRef
       assign_lastTimestampRef].
  rewrite Hvr', Hpr', Hpar', Hh', Hb'. repeat split.
Qed.

(** An accepted sample with a finite elapsed time has a positive one, of
    a millisecond at least. *)
Lemma accepted_elapsed h s event (dt : R) :
  accepted h s event = true ->
  elapsed h s event = Fin dt ->
  0.001 <= dt.
Proof.
  unfold accepted, elapsed.
  destruct (MotionEvent.acceleration event); [|discriminate].
  destruct (lastTimestampRef s) as [last|]; [|discriminate].
  intros H E. rewrite E in H. apply negb_true_iff in H.
  unfold tooSoon in H. apply orb_false_iff in H as [_ H].
  apply lt_Fin_false in H. exact H.
Qed.

Lemma dampedVelocity_free (v dt : R) :
  dampedVelocity (Fin v) (Fin 0) (Fin dt) = Fin (v * exp (- dt)).
Proof.
  unfold dampedVelocity, damping. cbn [mul add neg Math_exp].
  f_equal. replace (v + 0 * dt) with v by ring.
  replace (- (1) * dt) with (- dt) by ring. reflexivity.
Qed.

Lemma exp_neg_lt_1 (dt : R) : 0 < dt -> 0 < exp (- dt) < 1.
Proof.
  intros Hdt. split; [apply exp_pos|].
  rewrite <- exp_0. apply exp_increasing. lra.
Qed.

Lemma hypot_scale (p q k : R) :
  0 <= k ->
  sqrt (p * k * (p * k) + q * k * (q * k)) = k * sqrt (p * p + q * q).
Proof.
  intros Hk.
  replace (p * k * (p * k) + q * k * (q * k))
    with (k * k * (p * p + q * q)) by ring.
  rewrite sqrt_mult_alt by nra. rewrite sqrt_square by exact Hk.
  reflexivity.
Qed.

Lemma hypot_pos (p q : R) : p <> 0 \/ q <> 0 -> 0 < sqrt (p * p + q * q).
Proof.
  intros H. apply sqrt_lt_R0. destruct H; nra.
Qed.

(** C5, as the code has it.  On an integrated sample whose world-frame
    acceleration after the deadzone is zero, with a finite velocity and a
    finite elapsed time, the elapsed time is positive, the velocity is
    scaled by [exp (- dt)], and its magnitude does not grow: it decreases
    strictly when the velocity is not zero, and a zero velocity stays
    zero. *)
Theorem free_velocity_decays h s event (vx vy dt : R) :
  integrated h s event = true ->
  velRef s = mkPoint (Fin vx) (Fin vy) ->
  elapsed h s event = Fin dt ->
  worldAxOf (headingRadOf s) (applyDeadzone (axUnbiasedOf s event))
    (applyDeadzone (ayUnbiasedOf s event)) = Fin 0 ->
  worldAyOf (headingRadOf s) (applyDeadzone (axUnbiasedOf s event))
    (applyDeadzone (ayUnbiasedOf s event)) = Fin 0 ->
  let v' := velRef (handleDeviceMotion h s event) in
  0 < dt /\
  v' = mkPoint (Fin (vx * exp (- dt))) (Fin (vy * exp (- dt))) /\
  (Math_hypot (x v') (y v') <=? Math_hypot (Fin vx) (Fin vy))%js = true /\
  (vx <> 0 \/ vy <> 0 ->
   (Math_hypot (x v') (y v') <? Math_hypot (Fin vx) (Fin vy))%js = true) /\
  (vx = 0 /\ vy = 0 -> v' = mkPoint (Fin 0) (Fin 0)).
Proof.
  intros Hint Hv Hdt Hwx Hwy v'.
  assert (Hpos : 0 < dt).
  { unfold integrated in Hint. apply andb_true_iff in Hint as [Hacc _].
    pose proof (accepted_elapsed h s event dt Hacc Hdt). lra. }
  destruct (integrated_branch h s event Hint) as (Hvel & _).
  subst v'. rewrite Hvel, Hwx, Hwy, Hdt, Hv. cbn [x y].
  rewrite !dampedVelocity_free.
  destruct (exp_neg_lt_1 dt Hpos) as [Hk0 Hk1].
  split; [exact Hpos|]. split; [reflexivity|].
  cbn [x y Math_hypot]. rewrite hypot_scale by lra.
  pose proof (sqrt_pos (vx * vx + vy * vy)) as Hs.
  split; [apply le_Fin; nra|]. split.
  - intros Hnz. apply lt_Fin. pose proof (hypot_pos vx vy Hnz). nra.
  - intros [-> ->]. f_equal; f_equal; ring.
Qed.

Lemma deltaTimeOf_Fin (now last : R) :
  deltaTimeOf (Fin now) (Fin last) = Fin ((now - last) / 1000).
Proof.
  unfold deltaTimeOf. cbn [sub neg add div].
  destruct (Req_dec_T 1000 0); [lra|reflexivity].
Qed.

Lemma degToRad_Fin : degToRad = Fin (PI / 180).
Proof.
  unfold degToRad, Math_PI. cbn [div].
  destruct (Req_dec_T 180 0); [lra|reflexivity].
Qed.

Lemma headingRadOf_Fin s (hd : R) :
  headingRef s = Fin hd -> headingRadOf s = Fin (hd * (PI / 180)).
Proof.
  intros E. unfold headingRadOf. rewrite E, degToRad_Fin.
  unfold num_or, truthy. destruct (Req_dec_T hd 0) as [->|_]; reflexivity.
Qed.

Lemma applyDeadzone_small (r : R) :
  Rabs r <= 0.05 -> applyDeadzone (Fin r) = Fin 0.
Proof.
  intros H. unfold applyDeadzone, gt, deadzone. cbn [Math_abs].
  destruct (lt (Fin 0.05) (Fin (Rabs r))) eqn:E; [|reflexivity].
  apply lt_Fin in E. lra.
Qed.

Lemma applyDeadzone_large (r : R) :
  0.05 < Rabs r -> applyDeadzone (Fin r) = Fin r.
Proof.
  intros H. unfold applyDeadzone, gt, deadzone. cbn [Math_abs].
  apply lt_Fin in H. rewrite H. reflexivity.
Qed.

(** A sample whose two raw readings are zero, met with a zero bias and a
    finite heading, has no world-frame acceleration. *)
Lemma rest_sample_no_acceleration s event (hd : R) :
  axRawOf event = Fin 0 ->
  ayRawOf event = Fin 0 ->
  accelBiasRef s = mkPoint (Fin 0) (Fin 0) ->
  headingRef s = Fin hd ->
  worldAxOf (headingRadOf s) (applyDeadzone (axUnbiasedOf s event))
    (applyDeadzone (ayUnbiasedOf s event)) = Fin 0 /\
  worldAyOf (headingRadOf s) (applyDeadzone (axUnbiasedOf s event))
    (applyDeadzone (ayUnbiasedOf s event)) = Fin 0.
Proof.
  intros Hx Hy Hb Hh.
  unfold axUnbiasedOf, ayUnbiasedOf.
  rewrite Hx, Hy, Hb, (headingRadOf_Fin s hd Hh). cbn [x y sub neg add].
  rewrite applyDeadzone_small
    by (replace (0 + - 0) with 0 by ring; rewrite Rabs_R0; lra).
  unfold worldAxOf, worldAyOf. cbn [Math_cos Math_sin mul add neg].
  split; f_equal; ring.
Qed.

Lemma countStationary_le ax ay s :
  (stationaryCountRef (countStationary ax ay s)
   <= S (stationaryCountRef s))%nat.
Proof.
  unfold countStationary.
  destruct (Math_hypot ax ay <? stationaryThreshold)%js; cbn; lia.
Qed.

Lemma accepted_spaced h s (t0 t : R) acc :
  lastTimestampRef s = Some (Fin t0) ->
  t0 + 1 <= t ->
  accepted h s (motionAt acc t) = true.
Proof.
  intros Hts Ht. unfold accepted.
  cbn [motionAt MotionEvent.acceleration]. rewrite Hts.
  apply negb_true_iff.
  change (timestampOf h (motionAt acc t)) with (Fin t).
  destruct (tooSoon (deltaTimeOf (Fin t) (Fin t0))) eqn:E; [|reflexivity].
  apply tooSoon_finite in E. lra.
Qed.

Lemma integrated_spaced h s (t0 t : R) acc :
  lastTimestampRef s = Some (Fin t0) ->
  t0 + 1 <= t ->
  (stationaryCountRef s < 5)%nat ->
  integrated h s (motionAt acc t) = true.
Proof.
  intros Hts Ht Hc. unfold integrated.
  rewrite (accepted_spaced h s t0 t acc Hts Ht). cbn [andb].
  apply negb_true_iff, Nat.leb_gt.
  pose proof (countStationary_le (axRawOf (motionAt acc t))
                (ayRawOf (motionAt acc t)) s).
  unfold stationarySamplesRequired. lia.
Qed.

Lemma elapsed_Fin h s (t0 t : R) acc :
  lastTimestampRef s = Some (Fin t0) ->
  elapsed h s (motionAt acc t) = Fin ((t - t0) / 1000).
Proof.
  intros Hts. unfold elapsed. rewrite Hts.
  change (timestampOf h (motionAt acc t)) with (Fin t).
  apply deltaTimeOf_Fin.
Qed.

Lemma free_velocity_decays_witness :
  let v' := velRef (handleDeviceMotion host0 movingAlongX
                      (motionAt noReading 1000)) in
  let dt := (1000 - 0) / 1000 in
  0 < dt /\
  v' = mkPoint (Fin (1 * exp (- dt))) (Fin (0 * exp (- dt))) /\
  (Math_hypot (x v') (y v') <=? Math_hypot (Fin 1) (Fin 0))%js = true /\
  (1 <> 0 \/ 0 <> 0 ->
   (Math_hypot (x v') (y v') <? Math_hypot (Fin 1) (Fin 0))%js = true) /\
  (1 = 0 /\ 0 = 0 -> v' = mkPoint (Fin 0) (Fin 0)).
Proof.
  apply (free_velocity_decays host0 movingAlongX (motionAt noReading 1000)
           1 0 ((1000 - 0) / 1000)).
  - apply (integrated_spaced host0 movingAlongX 0 1000);
      [reflexivity | lra | cbn; lia].
  - reflexivity.
  - apply elapsed_Fin. reflexivity.
  - apply (rest_sample_no_acceleration movingAlongX _ 0);
      try reflexivity; apply or_Fin.
  - apply (rest_sample_no_acceleration movingAlongX _ 0);
      try reflexivity; apply or_Fin.
Defined.

(** C5, as first stated, fails on a device at rest: the sample is
    integrated, its world-frame acceleration is zero and a full second has
    elapsed, yet the velocity magnitude, zero before, is not strictly
    smaller after. *)
Lemma zero_velocity_does_not_decrease :
  let s := seededAt 0 in
  let event := motionAt noReading 1000 in
  let v' := velRef (handleDeviceMotion host0 s event) in
  integrated host0 s event = true /\
  worldAxOf (headingRadOf s) (applyDeadzone (axUnbiasedOf s event))
    (applyDeadzone (ayUnbiasedOf s event)) = Fin 0 /\
  worldAyOf (headingRadOf s) (applyDeadzone (axUnbiasedOf s event))
    (applyDeadzone (ayUnbiasedOf s event)) = Fin 0 /\
  elapsed host0 s event = Fin 1 /\
  (Math_hypot (x v') (y v')
   <? Math_hypot (x (velRef s)) (y (velRef s)))%js = false.
Proof.
  intros s event v'.
  assert (Hint : integrated host0 s event = true)
    by (apply (integrated_spaced host0 s 0 1000);
        [reflexivity|lra|cbn; lia]).
  destruct (rest_sample_no_acceleration s event 0
              (or_Fin 0) (or_Fin 0) eq_refl eq_refl) as [Hwx Hwy].
  assert (Hdt : elapsed host0 s event = Fin 1).
  { unfold event. rewrite (elapsed_Fin host0 s 0 1000 noReading eq_refl).
    f_equal. lra. }
  repeat split; trivial.
  destruct (integrated_branch host0 s event Hint) as (Hvel & _).
  subst v'. rewrite Hvel, Hwx, Hwy, Hdt.
  change (velRef s) with (mkPoint (Fin 0) (Fin 0)). cbn [x y].
  rewrite dampedVelocity_free. unfold Math_hypot. apply lt_Fin_false.
  replace (0 * exp (- (1))) with 0 by ring. lra.
Qed.

(* ================================================================= *)
(** ** Deadzone and rotation *)

Lemma applyDeadzone_le (u : num) :
  (Math_abs u <=? deadzone)%js = true -> applyDeadzone u = Fin 0.
Proof.
  destruct u as [r| | |]; cbn [Math_abs]; unfold deadzone; try discriminate.
  intros H. apply le_Fin in H. now apply applyDeadzone_small.
Qed.

Lemma applyDeadzone_gt (u : num) :
  (Math_abs u >? deadzone)%js = true -> applyDeadzone u = u.
Proof.
  unfold applyDeadzone. intros ->. reflexivity.
Qed.

Lemma world_of_y_only (hr : R) (a : num) :
  worldAxOf (Fin hr) (Fin 0) a = (a * Math_sin (Fin hr))%js /\
  worldAyOf (Fin hr) (Fin 0) a = (a * Math_cos (Fin hr))%js.
Proof.
  unfold worldAxOf, worldAyOf. cbn [Math_cos Math_sin neg].
  split.
  - change (Fin 0 * Fin (cos hr))%js with (Fin (0 * cos hr)).
    replace (0 * cos hr) with 0 by ring. apply add_0_l.
  - change (Fin (- 0) * Fin (sin hr))%js with (Fin (- 0 * sin hr)).
    replace (- 0 * sin hr) with 0 by ring. apply add_0_l.
Qed.

Lemma world_of_x_only (hr : R) (a : num) :
  worldAxOf (Fin hr) a (Fin 0) = (a * Math_cos (Fin hr))%js /\
  worldAyOf (Fin hr) a (Fin 0) = (- a * Math_sin (Fin hr))%js.
Proof.
  unfold worldAxOf, worldAyOf. cbn [Math_cos Math_sin].
  change (Fin 0 * Fin (sin hr))%js with (Fin (0 * sin hr)).
  change (Fin 0 * Fin (cos hr))%js with (Fin (0 * cos hr)).
  replace (0 * sin hr) with 0 by ring.
  replace (0 * cos hr) with 0 by ring.
  split; apply add_0_r.
Qed.

(** C9.  On an integrated sample the velocity is computed from the two
    bias-corrected components after [applyDeadzone]; that function returns
    exactly zero for a component of absolute value at most 0.05 and the
    component itself above 0.05; and a zeroed component drops out of the
    rotation: the world-frame acceleration is then the rotation of the
    other component alone. *)
Theorem deadzone_zeroes_small_components h s event :
  integrated h s event = true ->
  let ax := applyDeadzone (axUnbiasedOf s event) in
  let ay := applyDeadzone (ayUnbiasedOf s event) in
  let headingRad := headingRadOf s in
  let deltaTime := elapsed h s event in
  velRef (handleDeviceMotion h s event) =
    mkPoint (dampedVelocity (x (velRef s)) (worldAxOf headingRad ax ay)
               deltaTime)
            (dampedVelocity (y (velRef s)) (worldAyOf headingRad ax ay)
               deltaTime) /\
  (forall u : num,
     (Math_abs u <=? deadzone)%js = true -> applyDeadzone u = Fin 0) /\
  (forall u : num,
     (Math_abs u >? deadzone)%js = true -> applyDeadzone u = u) /\
  (forall (hr : R) (a : num),
     worldAxOf (Fin hr) (Fin 0) a = (a * Math_sin (Fin hr))%js /\
     worldAyOf (Fin hr) (Fin 0) a = (a * Math_cos (Fin hr))%js) /\
  (forall (hr : R) (a : num),
     worldAxOf (Fin hr) a (Fin 0) = (a * Math_cos (Fin hr))%js /\
     worldAyOf (Fin hr) a (Fin 0) = (- a * Math_sin (Fin hr))%js).
Proof.
  intros Hint ax ay headingRad deltaTime.
  split; [exact (proj1 (integrated_branch h s event Hint))|].
  split; [exact applyDeadzone_le|].
  split; [exact applyDeadzone_gt|].
  split; [exact world_of_y_only | exact world_of_x_only].
Qed.

Lemma deadzone_zeroes_small_components_witness :
  applyDeadzone (Fin 0.03) = Fin 0 /\
  applyDeadzone (Fin 1) = Fin 1 /\
  velRef (handleDeviceMotion host0 movingAlongX sampleSmallX) =
    mkPoint
      (dampedVelocity (x (velRef movingAlongX))
         (worldAxOf (headingRadOf movingAlongX)
            (applyDeadzone (axUnbiasedOf movingAlongX sampleSmallX))
            (applyDeadzone (ayUnbiasedOf movingAlongX sampleSmallX)))
         (elapsed host0 movingAlongX sampleSmallX))
      (dampedVelocity (y (velRef movingAlongX))
         (worldAyOf (headingRadOf movingAlongX)
            (applyDeadzone (axUnbiasedOf movingAlongX sampleSmallX))
            (applyDeadzone (ayUnbiasedOf movingAlongX sampleSmallX)))
         (elapsed host0 movingAlongX sampleSmallX)).
Proof.
  assert (Hint : integrated host0 movingAlongX sampleSmallX = true)
    by (apply (integrated_spaced host0 movingAlongX 0 1000);
        [reflexivity | lra | cbn; lia]).
  destruct (deadzone_zeroes_small_components host0 movingAlongX
              sampleSmallX Hint) as (Hvel & Hle & Hgt & _).
  split; [|split; [|exact Hvel]].
  - apply Hle. apply le_Fin. rewrite Rabs_pos_eq; lra.
  - apply Hgt. apply lt_Fin. rewrite Rabs_pos_eq; lra.
Defined.

(** C10, as amended.  For a finite heading and a finite device-frame
    acceleration the rotation formulas of lines 188-190, evaluated in
    exact real arithmetic, keep the squared Euclidean norm, and so the
    norm.  This is an identity of real numbers; the binary64 numbers the
    program computes need not satisfy it, as the lemma after the witness
    shows. *)
Theorem rotation_preserves_norm s (hd ax ay : R) :
  headingRef s = Fin hd ->
  let headingRad := headingRadOf s in
  let worldAx := worldAxOf headingRad (Fin ax) (Fin ay) in
  let worldAy := worldAyOf headingRad (Fin ax) (Fin ay) in
  (worldAx * worldAx + worldAy * worldAy)%js = Fin (ax * ax + ay * ay) /\
  Math_hypot worldAx worldAy = Math_hypot (Fin ax) (Fin ay).
Proof.
  intros Hh. cbv zeta. rewrite (headingRadOf_Fin s hd Hh).
  unfold worldAxOf, worldAyOf.
  cbn [Math_cos Math_sin mul add neg Math_hypot].
  set (r := hd * (PI / 180)).
  pose proof (sin2_cos2 r) as H. unfold Rsqr in H.
  assert (E : (ax * cos r + ay * sin r) * (ax * cos r + ay * sin r)
              + (- ax * sin r + ay * cos r) * (- ax * sin r + ay * cos r)
              = ax * ax + ay * ay).
  { replace ((ax * cos r + ay * sin r) * (ax * cos r + ay * sin r)
             + (- ax * sin r + ay * cos r) * (- ax * sin r + ay * cos r))
      with ((ax * ax + ay * ay) * (sin r * sin r + cos r * cos r)) by ring.
    rewrite H. ring. }
  split; rewrite E; reflexivity.
Qed.

Lemma rotation_preserves_norm_witness :
  let headingRad := headingRadOf initialState in
  let worldAx := worldAxOf headingRad (Fin 3) (Fin 4) in
  let worldAy := worldAyOf headingRad (Fin 3) (Fin 4) in
  (worldAx * worldAx + worldAy * worldAy)%js = Fin (3 * 3 + 4 * 4) /\
  Math_hypot worldAx worldAy = Math_hypot (Fin 3) (Fin 4).
Proof.
  apply (rotation_preserves_norm initialState 0 3 4). reflexivity.
Defined.

(** C10, as first stated, fails on the program's numbers.  At a heading
    of 90 degrees line 188 gives 1.5707963267948966; with the cosine
    6.123233995736766e-17 and the sine 1 that the library returns there,
    the acceleration (1, 1) is rotated to a vector whose squared norm is
    1.9999999999999998, while [1 * 1 + 1 * 1] is 2.  The squared norms
    differ as well for every cosine and sine within one unit in the last
    place of those two. *)
Lemma rotation_changes_norm_in_binary64 :
  Binary64.headingRadOf Binary64.ninety = Binary64.halfPi /\
  Binary64.normSq
    (Binary64.worldAxOf Binary64.cosHalfPi Binary64.sinHalfPi
       Binary64.one Binary64.one)
    (Binary64.worldAyOf Binary64.cosHalfPi Binary64.sinHalfPi
       Binary64.one Binary64.one)
  = Binary64.belowTwo /\
  Binary64.normSq Binary64.one Binary64.one = Binary64.two /\
  Binary64.same Binary64.belowTwo Binary64.two = false /\
  forallb
    (fun cosH =>
       forallb
         (fun sinH =>
            Binary64.normChanges cosH sinH Binary64.one Binary64.one)
         Binary64.nearSinHalfPi)
    Binary64.nearCosHalfPi = true.
Proof.
  repeat split; vm_compute; reflexivity.
Qed.

(* ================================================================= *)
(** ** Malformed motion samples *)

Lemma handleDeviceMotion_no_acceleration h s event :
  MotionEvent.acceleration event = None ->
  handleDeviceMotion h s event = showSensors s event.
Proof. unfold handleDeviceMotion. intros ->. reflexivity. Qed.

(** The handler reads the acceleration only through lines 156-157. *)
Lemma handleDeviceMotion_reads_or h s g r ts (a b : Triple value) :
  or (fst3 a) (Fin 0) = or (fst3 b) (Fin 0) ->
  or (snd3 a) (Fin 0) = or (snd3 b) (Fin 0) ->
  handleDeviceMotion h s (MotionEvent.mk g r (Some a) ts)
  = handleDeviceMotion h s (MotionEvent.mk g r (Some b) ts).
Proof.
  intros Hx Hy. unfold handleDeviceMotion, showSensors, timestampOf.
  cbn [MotionEvent.acceleration MotionEvent.accelerationIncludingGravity
       MotionEvent.rotationRate MotionEvent.timeStamp].
  rewrite Hx, Hy. reflexivity.
Qed.

(** *** What is not finite stays not finite *)

Lemma nonfinite_neg (a : num) : finite a = false -> finite (- a)%js = false.
Proof. destruct a; cbn; congruence. Qed.

Lemma nonfinite_signed_inf (p : R) :
  finite (signed_inf (sgn p)) = false /\
  finite (- signed_inf (sgn p))%js = false.
Proof. destruct (sgn p); split; reflexivity. Qed.

Lemma nonfinite_add_l (a b : num) :
  finite a = false -> finite (a + b)%js = false.
Proof. destruct a, b; cbn; congruence. Qed.

Lemma nonfinite_add_r (a b : num) :
  finite b = false -> finite (a + b)%js = false.
Proof. destruct a, b; cbn; congruence. Qed.

Lemma nonfinite_mul_l (a b : num) :
  finite a = false -> finite (a * b)%js = false.
Proof.
  destruct a, b; cbn [mul finite]; try congruence; intros _;
    apply nonfinite_signed_inf.
Qed.

Lemma nonfinite_mul_r (a b : num) :
  finite b = false -> finite (a * b)%js = false.
Proof.
  destruct a, b; cbn [mul finite]; try congruence; intros _;
    apply nonfinite_signed_inf.
Qed.

Lemma nonfinite_world (headingRad ax ay : num) :
  finite ax = false \/ finite ay = false ->
  finite (worldAxOf headingRad ax ay) = false /\
  finite (worldAyOf headingRad ax ay) = false.
Proof.
  unfold worldAxOf, worldAyOf. intros [H|H]; split.
  - apply nonfinite_add_l, nonfinite_mul_l, H.
  - apply nonfinite_add_l, nonfinite_mul_l, nonfinite_neg, H.
  - apply nonfinite_add_r, nonfinite_mul_l, H.
  - apply nonfinite_add_r, nonfinite_mul_l, H.
Qed.

Lemma nonfinite_dampedVelocity (v worldA deltaTime : num) :
  finite worldA = false ->
  finite (dampedVelocity v worldA deltaTime) = false.
Proof.
  intros H. unfold dampedVelocity.
  apply nonfinite_mul_l, nonfinite_add_r, nonfinite_mul_l, H.
Qed.

(** No finiteness check stands between the sample and the state: an
    integrated sample with an infinite x or y reading, met with a finite
    bias, leaves no component of velocity or position finite. *)
Lemma infinite_reading_reaches_state h s event :
  integrated h s event = true ->
  finitePoint (accelBiasRef s) = true ->
  (axRawOf event = PInf \/ axRawOf event = NInf \/
   ayRawOf event = PInf \/ ayRawOf event = NInf) ->
  let s' := handleDeviceMotion h s event in
  finite (x (velRef s')) = false /\ finite (y (velRef s')) = false /\
  finite (x (posRef s')) = false /\ finite (y (posRef s')) = false /\
  velocity s' = velRef s' /\ position s' = posRef s'.
Proof.
  intros Hint Hb Hinf s'.
  destruct (integrated_branch h s event Hint) as (Hv & Hvc & Hp & Hpc & _).
  fold s' in Hv, Hvc, Hp, Hpc.
  destruct (accelBiasRef s) as [[bx| | |] [by_| | |]] eqn:Eb;
    try discriminate Hb.
  assert (Hdz : finite (applyDeadzone (axUnbiasedOf s event)) = false \/
                finite (applyDeadzone (ayUnbiasedOf s event)) = false).
  { unfold axUnbiasedOf, ayUnbiasedOf. rewrite Eb. cbn [x y].
    destruct Hinf as [E|[E|[E|E]]]; rewrite E;
      [left|left|right|right]; reflexivity. }
  destruct (nonfinite_world (headingRadOf s) _ _ Hdz) as [Hwx Hwy].
  pose proof (nonfinite_dampedVelocity (x (velRef s)) _
                (elapsed h s event) Hwx) as Hvx.
  pose proof (nonfinite_dampedVelocity (y (velRef s)) _
                (elapsed h s event) Hwy) as Hvy.
  rewrite Hvc, Hpc, Hv, Hp. cbn [x y].
  repeat split; trivial;
    apply nonfinite_add_r, nonfinite_mul_l; assumption.
Qed.

Lemma infinite_property_reading (v : value) :
  notInfinite v = false -> or v (Fin 0) = PInf \/ or v (Fin 0) = NInf.
Proof.
  destruct v as [| |[r| | |]]; try discriminate; intros _;
    [left|right]; reflexivity.
Qed.

(** C2, as the code has it.  A motion sample without an acceleration
    object is dropped before velocity, position, path or the timestamp
    baseline change.  A sample whose acceleration is present but has a
    missing, [null] or NaN component is not dropped: the component is read
    as 0 and the sample is handled exactly like the one carrying 0
    there.  Nothing checks for finite values: an integrated sample with
    an infinite x or y component, met with a finite bias, leaves every
    component of velocity and position (references and cells) not
    finite. *)
Theorem missing_component_is_read_as_zero h s g r ts :
  (let s' := handleDeviceMotion h s (MotionEvent.mk g r None ts) in
   velocity s' = velocity s /\ velRef s' = velRef s /\
   position s' = position s /\ posRef s' = posRef s /\
   path s' = path s /\ pathRef s' = pathRef s /\
   lastTimestampRef s' = lastTimestampRef s) /\
  (forall ax ay az : value,
     missingOrNaN ax = true ->
     handleDeviceMotion h s
       (MotionEvent.mk g r (Some (mkTriple ax ay az)) ts)
     = handleDeviceMotion h s
         (MotionEvent.mk g r (Some (mkTriple (Num 0) ay az)) ts)) /\
  (forall ax ay az : value,
     missingOrNaN ay = true ->
     handleDeviceMotion h s
       (MotionEvent.mk g r (Some (mkTriple ax ay az)) ts)
     = handleDeviceMotion h s
         (MotionEvent.mk g r (Some (mkTriple ax (Num 0) az)) ts)) /\
  (forall ax ay az : value,
     notInfinite ax = false \/ notInfinite ay = false ->
     finitePoint (accelBiasRef s) = true ->
     let event := MotionEvent.mk g r (Some (mkTriple ax ay az)) ts in
     integrated h s event = true ->
     let s' := handleDeviceMotion h s event in
     finite (x (velRef s')) = false /\ finite (y (velRef s')) = false /\
     finite (x (posRef s')) = false /\ finite (y (posRef s')) = false /\
     velocity s' = velRef s' /\ position s' = posRef s').
Proof.
  split; [|split; [|split]].
  - rewrite handleDeviceMotion_no_acceleration by reflexivity.
    destruct (showSensors_frame s (MotionEvent.mk g r None ts))
      as (Hv&Hp&Hpa&_&_&Hvr&Hpr&Hpar&_&Hts&_).
    cbv zeta. rewrite Hv, Hp, Hpa, Hvr, Hpr, Hpar, Hts. repeat split.
  - intros ax ay az Hm. apply handleDeviceMotion_reads_or; cbn [fst3 snd3].
    + rewrite (or_missing ax Hm), or_Fin. reflexivity.
    + reflexivity.
  - intros ax ay az Hm. apply handleDeviceMotion_reads_or; cbn [fst3 snd3].
    + reflexivity.
    + rewrite (or_missing ay Hm), or_Fin. reflexivity.
  - intros ax ay az Hinf Hb event Hint.
    apply infinite_reading_reaches_state; trivial.
    unfold axRawOf, ayRawOf, event.
    cbn [MotionEvent.acceleration fst3 snd3].
    destruct Hinf as [H|H];
      destruct (infinite_property_reading _ H) as [E|E]; rewrite E; auto.
Qed.

Lemma missing_component_is_read_as_zero_witness :
  handleDeviceMotion host0 (seededAt 0) sampleWithoutX
  = handleDeviceMotion host0 (seededAt 0) (motionAt noReading 1000) /\
  handleDeviceMotion host0 (seededAt 0)
    (motionAt (mkTriple (Num 0) (Num NaN) (Num 0)) 1000)
  = handleDeviceMotion host0 (seededAt 0) (motionAt noReading 1000) /\
  (let s' := handleDeviceMotion host0 (seededAt 0) sampleWithInfiniteX in
   finite (x (velRef s')) = false /\ finite (y (velRef s')) = false /\
   finite (x (posRef s')) = false /\ finite (y (posRef s')) = false /\
   velocity s' = velRef s' /\ position s' = posRef s').
Proof.
  destruct (missing_component_is_read_as_zero host0 (seededAt 0)
              None None (Num (Fin 1000))) as (_ & Hx & Hy & Hinf).
  split; [|split].
  - apply (Hx Undefined (Num 0) (Num 0)). reflexivity.
  - apply (Hy (Num 0) (Num NaN) (Num 0)). reflexivity.
  - apply (Hinf (Num PInf) (Num 0) (Num 0)).
    + left. reflexivity.
    + reflexivity.
    + apply (integrated_spaced host0 (seededAt 0) 0 1000);
        [reflexivity | lra | cbn; lia].
Defined.

(** C2, as first stated, fails in a state the component reaches: after
    the first sample of a session has seeded the baseline at time 0, a
    sample one second later whose [acceleration.x] is missing is
    integrated, and the path (reference and cell) grows from one point to
    two. *)
Lemma sample_without_x_mutates_state :
  let s := run host0 initialState [Motion (motionAt noReading 0)] in
  let s' := handleDeviceMotion host0 s sampleWithoutX in
  s = seededAt 0 /\
  MotionEvent.acceleration sampleWithoutX
  = Some (mkTriple Undefined (Num 0) (Num 0)) /\
  missingOrNaN Undefined = true /\
  pathRef s' <> pathRef s /\
  path s' <> path s /\
  length (path s) = 1%nat /\ length (path s') = 2%nat.
Proof.
  intros s s'.
  assert (Es : s = seededAt 0) by reflexivity.
  split; [exact Es|]. split; [reflexivity|]. split; [reflexivity|].
  assert (Hint : integrated host0 (seededAt 0) sampleWithoutX = true)
    by (apply (integrated_spaced host0 (seededAt 0) 0 1000);
        [reflexivity | lra | cbn; lia]).
  destruct (integrated_branch host0 (seededAt 0) sampleWithoutX Hint)
    as (_ & _ & _ & _ & Hpath & Hpathc).
  subst s'. rewrite Es. rewrite Hpath, Hpathc.
  change (pathRef (seededAt 0)) with [origin].
  change (path (seededAt 0)) with [origin].
  repeat split; try reflexivity; intros E; discriminate E.
Qed.

(* ================================================================= *)
(** ** Projection of the path *)

Lemma metersPerLonDegreeAt_Fin (lat0 : R) :
  metersPerLonDegreeAt (Fin lat0) = Fin (111320 * cos (lat0 * PI / 180)).
Proof.
  unfold metersPerLonDegreeAt, Math_PI. cbn [mul div].
  destruct (Req_dec_T 180 0); [lra|reflexivity].
Qed.

(** The two effects store what [projectPath] and [ingestGroundTruth]
    compute. *)
Lemma projectEffect_stores path gpsLocation s :
  drPathCoords (projectEffect path gpsLocation s)
  = projectPath path gpsLocation /\
  gpsPathCoords (projectEffect path gpsLocation s) = gpsPathCoords s.
Proof.
  unfold projectEffect. cbn [initialCenter].
  destruct (initialCenter s), (projectPath path gpsLocation);
    cbn; split; reflexivity.
Qed.

Lemma trackEffect_stores g s :
  gpsPathCoords (trackEffect (Some g) s)
  = ingestGroundTruth (gpsPathCoords s) (latitude g, longitude g) /\
  drPathCoords (trackEffect (Some g) s) = drPathCoords s /\
  trackEffect None s = s.
Proof. repeat split. Qed.

(** One finite point under a finite anchor away from the poles. *)
Lemma project_point_finite (lat0 lon0 px py : R) :
  cos (lat0 * PI / 180) <> 0 ->
  ((Fin lat0 + Fin py / metersPerLatDegree)%js,
   (Fin lon0 + Fin px / metersPerLonDegreeAt (Fin lat0))%js)
  = (Fin (lat0 + py / 111320),
     Fin (lon0 + px / (111320 * cos (lat0 * PI / 180)))).
Proof.
  intros Hc. rewrite metersPerLonDegreeAt_Fin.
  unfold metersPerLatDegree. cbn [div add].
  destruct (Req_dec_T 111320 0); [lra|].
  destruct (Req_dec_T (111320 * cos (lat0 * PI / 180)) 0) as [E|_].
  - exfalso. apply Hc. nra.
  - reflexivity.
Qed.

(** C7.  [projectPath] gives the empty trace when the anchor is missing
    or the path has fewer than two points; otherwise it maps every point
    to [anchorLat + y / 111320] and
    [anchorLon + x / (111320 * cos (anchorLat in radians))], which for
    finite values away from the poles is the same formula over the reals;
    with the anchor at (0, 0) the point (0, 111320) lands within 0.0001
    degrees of latitude 1 and longitude 0. *)
Theorem projectPath_flat_earth :
  (forall path, projectPath path None = []) /\
  (forall path gpsLocation,
     (length path < 2)%nat -> projectPath path gpsLocation = []) /\
  (forall path g,
     (2 <= length path)%nat ->
     projectPath path (Some g)
     = map (fun p =>
              ((latitude g + y p / 111320)%js,
               (longitude g
                + x p / (111320 * Math_cos ((latitude g * Math_PI) / 180)))%js))
         path) /\
  (forall path (lat0 lon0 px py : R) acc ts i,
     (2 <= length path)%nat ->
     cos (lat0 * PI / 180) <> 0 ->
     nth_error path i = Some (mkPoint (Fin px) (Fin py)) ->
     nth_error
       (projectPath path (Some (mkGpsLocation (Fin lat0) (Fin lon0) acc ts)))
       i
     = Some (Fin (lat0 + py / 111320),
             Fin (lon0 + px / (111320 * cos (lat0 * PI / 180))))) /\
  (forall p0 acc ts, exists lat lon : R,
     projectPath [p0; mkPoint (Fin 0) (Fin 111320)]
       (Some (mkGpsLocation (Fin 0) (Fin 0) acc ts))
     = [ ((Fin 0 + y p0 / metersPerLatDegree)%js,
          (Fin 0 + x p0 / metersPerLonDegreeAt (Fin 0))%js);
         (Fin lat, Fin lon) ] /\
     Rabs (lat - 1) <= 0.0001 /\ Rabs (lon - 0) <= 0.0001).
Proof.
  assert (Hmap : forall path g, (2 <= length path)%nat ->
     projectPath path (Some g)
     = map (fun p =>
              ((latitude g + y p / metersPerLatDegree)%js,
               (longitude g + x p / metersPerLonDegreeAt (latitude g))%js))
         path).
  { intros path g Hlen. unfold projectPath.
    destruct (length path <? 2)%nat eqn:E; [|reflexivity].
    apply Nat.ltb_lt in E. lia. }
  split; [reflexivity|]. split; [|split; [exact Hmap|split]].
  - intros path [g|] Hlen; [|reflexivity]. unfold projectPath.
    apply Nat.ltb_lt in Hlen. rewrite Hlen. reflexivity.
  - intros path lat0 lon0 px py acc ts i Hlen Hc Hi.
    rewrite (Hmap _ _ Hlen), nth_error_map, Hi.
    cbn [option_map latitude longitude x y].
    rewrite (project_point_finite lat0 lon0 px py Hc). reflexivity.
  - intros p0 acc ts.
    assert (Hc : cos (0 * PI / 180) <> 0).
    { replace (0 * PI / 180) with 0 by lra. rewrite cos_0. lra. }
    exists (0 + 111320 / 111320), (0 + 0 / (111320 * cos (0 * PI / 180))).
    split; [|split].
    + rewrite Hmap by (cbn; lia).
      cbn [map latitude longitude x y].
      rewrite (project_point_finite 0 0 0 111320 Hc). reflexivity.
    + replace (0 + 111320 / 111320 - 1) with 0 by lra.
      rewrite Rabs_R0. lra.
    + replace (0 + 0 / (111320 * cos (0 * PI / 180)) - 0) with 0
        by (unfold Rdiv; ring).
      rewrite Rabs_R0. lra.
Qed.

Lemma projectPath_flat_earth_witness :
  projectPath [mkPoint (Fin 0) (Fin 0)] None = [] /\
  nth_error
    (projectPath [mkPoint (Fin 0) (Fin 0); mkPoint (Fin 0) (Fin 111320)]
       (Some (mkGpsLocation (Fin 0) (Fin 0) (Fin 5) (Fin 0)))) 1
  = Some (Fin (0 + 111320 / 111320),
          Fin (0 + 0 / (111320 * cos (0 * PI / 180)))).
Proof.
  destruct projectPath_flat_earth as (_ & Hshort & _ & Hfin & _).
  split.
  - apply Hshort. cbn. lia.
  - apply Hfin.
    + cbn. lia.
    + replace (0 * PI / 180) with 0 by lra. rewrite cos_0. lra.
    + reflexivity.
Defined.

(* ================================================================= *)
(** ** The ground-truth trace *)

(** On finite coordinates the distance of lines 91-99 is the flat-Earth
    distance over the reals. *)
Lemma flatDistance_finite (p q : R * R) :
  flatDistance (latLon p) (latLon q) = Fin (flatEarthMeters p q).
Proof.
  destruct p as [plat plon], q as [qlat qlon].
  unfold flatDistance, flatEarthMeters, latLon, Math_PI.
  cbn [fst snd sub neg add mul div Math_cos].
  destruct (Req_dec_T 180 0); [lra|].
  cbn [Math_cos mul Math_pow add Math_sqrt].
  set (a := (plat + - qlat) * 111320).
  set (b := (plon + - qlon) * 111320 * cos (plat * PI / 180)).
  destruct (Rlt_dec (a ^ 2 + b ^ 2) 0) as [Hneg|_].
  - exfalso. pose proof (pow2_ge_0 a). pose proof (pow2_ge_0 b). lra.
  - reflexivity.
Qed.

Lemma isDuplicate_finite (prev : list (R * R)) (q : R * R) :
  isDuplicate (map latLon prev) (latLon q) = true
  <-> Exists (fun p => flatEarthMeters p q < 0.5) prev.
Proof.
  unfold isDuplicate. induction prev as [|p prev IH]; cbn [map existsb].
  - split; [discriminate|]. intros H. inversion H.
  - rewrite orb_true_iff, IH, flatDistance_finite, lt_Fin.
    split.
    + intros [H|H]; [now apply Exists_cons_hd | now apply Exists_cons_tl].
    + intros H. inversion H; subst; [now left | now right].
Qed.

Lemma not_Exists_close (prev : list (R * R)) (q : R * R) :
  ~ Exists (fun p => flatEarthMeters p q < 0.5) prev
  <-> Forall (fun p => 0.5 <= flatEarthMeters p q) prev.
Proof.
  induction prev as [|p prev IH].
  - split; [constructor|]. intros _ H. inversion H.
  - split.
    + intros H. constructor.
      * destruct (Rle_dec 0.5 (flatEarthMeters p q)) as [Hle|Hgt];
          [exact Hle|].
        exfalso. apply H. apply Exists_cons_hd. lra.
      * apply IH. intros Hex. apply H. now apply Exists_cons_tl.
    + intros H Hex. inversion H as [|? ? Hp Hrest]; subst.
      inversion Hex as [? ? Hc|? ? Hc]; subst; [lra|].
      now apply IH in Hrest.
Qed.

Lemma app_singleton_neq {A : Type} (l : list A) (a : A) : l <> l ++ [a].
Proof.
  intros E. apply (f_equal (@length A)) in E.
  rewrite length_app in E. cbn in E. lia.
Qed.

(** C8.  On finite coordinates [ingestGroundTruth] appends the new fix
    exactly when its flat-Earth distance to every stored point, the
    longitude scaled at the stored point's latitude, is at least 0.5 m; a
    fix closer than 0.5 m to some stored point leaves the trace as it is;
    of two fixes fed to an empty trace both are stored when they are 1 m
    apart, and only the first when they are less than 0.5 m apart. *)
Theorem ingestGroundTruth_dedup :
  (forall (prev : list (R * R)) (newFix : R * R),
     ingestGroundTruth (map latLon prev) (latLon newFix)
     = map latLon prev ++ [latLon newFix]
     <-> Forall (fun p => 0.5 <= flatEarthMeters p newFix) prev) /\
  (forall (prev : list (R * R)) (newFix : R * R),
     Exists (fun p => flatEarthMeters p newFix < 0.5) prev ->
     ingestGroundTruth (map latLon prev) (latLon newFix) = map latLon prev) /\
  (forall first second : R * R,
     flatEarthMeters first second = 1 ->
     ingestGroundTruth (ingestGroundTruth [] (latLon first)) (latLon second)
     = [latLon first; latLon second]) /\
  (forall first second : R * R,
     flatEarthMeters first second < 0.5 ->
     ingestGroundTruth (ingestGroundTruth [] (latLon first)) (latLon second)
     = [latLon first]).
Proof.
  assert (Hdup : forall prev newFix,
     Exists (fun p => flatEarthMeters p newFix < 0.5) prev ->
     ingestGroundTruth (map latLon prev) (latLon newFix) = map latLon prev).
  { intros prev newFix H. unfold ingestGroundTruth.
    apply isDuplicate_finite in H. rewrite H. reflexivity. }
  assert (Hnew : forall prev newFix,
     Forall (fun p => 0.5 <= flatEarthMeters p newFix) prev ->
     ingestGroundTruth (map latLon prev) (latLon newFix)
     = map latLon prev ++ [latLon newFix]).
  { intros prev newFix H. unfold ingestGroundTruth.
    destruct (isDuplicate (map latLon prev) (latLon newFix)) eqn:E;
      [|reflexivity].
    apply isDuplicate_finite in E. apply not_Exists_close in H.
    contradiction. }
  split; [|split; [exact Hdup|split]].
  - intros prev newFix. split; [|apply Hnew].
    intros E. apply not_Exists_close. intros Hex.
    rewrite (Hdup _ _ Hex) in E. exact (app_singleton_neq _ _ E).
  - intros first second Hd.
    change (ingestGroundTruth [] (latLon first)) with (map latLon [first]).
    rewrite Hnew; [reflexivity|]. constructor; [lra|constructor].
  - intros first second Hd.
    change (ingestGroundTruth [] (latLon first)) with (map latLon [first]).
    rewrite Hdup; [reflexivity|]. now apply Exists_cons_hd.
Qed.

(** One metre north of the origin, in degrees of latitude. *)
Lemma one_metre_north : flatEarthMeters (0, 0) (1 / 111320, 0) = 1.
Proof.
  unfold flatEarthMeters. cbn [fst snd].
  replace (((0 - 1 / 111320) * 111320) ^ 2
           + ((0 - 0) * 111320 * cos (0 * PI / 180)) ^ 2)
    with 1 by (field_simplify; lra).
  apply sqrt_1.
Qed.

Lemma ingestGroundTruth_dedup_witness :
  ingestGroundTruth (ingestGroundTruth [] (latLon (0, 0)))
    (latLon (1 / 111320, 0))
  = [latLon (0, 0); latLon (1 / 111320, 0)] /\
  ingestGroundTruth (ingestGroundTruth [] (latLon (0, 0))) (latLon (0, 0))
  = [latLon (0, 0)] /\
  ingestGroundTruth (map latLon [(0, 0)]) (latLon (0, 0))
  = map latLon [(0, 0)].
Proof.
  destruct ingestGroundTruth_dedup as (_ & Hdup & Hfar & Hnear).
  assert (Hzero : flatEarthMeters (0, 0) (0, 0) < 0.5).
  { unfold flatEarthMeters. cbn [fst snd].
    replace (((0 - 0) * 111320) ^ 2
             + ((0 - 0) * 111320 * cos (0 * PI / 180)) ^ 2)
      with 0 by ring.
    rewrite sqrt_0. lra. }
  split; [|split].
  - apply Hfar. exact one_metre_north.
  - apply Hnear. exact Hzero.
  - apply Hdup. apply Exists_cons_hd. exact Hzero.
Defined.

(* ================================================================= *)
(** ** The heading *)

Lemma radToDeg_Fin : radToDeg = Fin (180 / PI).
Proof.
  unfold radToDeg, Math_PI. cbn [div].
  destruct (Req_dec_T PI 0) as [E|_]; [|reflexivity].
  pose proof PI_RGT_0. lra.
Qed.

(** The remainder of a non-negative dividend by a positive divisor. *)
Lemma rem_range (p q : R) :
  0 <= p -> 0 < q ->
  exists r : R, (Fin p %% Fin q)%js = Fin r /\ 0 <= r < q.
Proof.
  intros Hp Hq. unfold rem.
  destruct (Req_dec_T q 0) as [E|_]; [lra|].
  eexists. split; [reflexivity|].
  assert (Hpq : 0 <= p / q).
  { unfold Rdiv. apply Rmult_le_pos; [exact Hp|].
    left. now apply Rinv_0_lt_compat. }
  unfold Rtrunc. destruct (Rle_dec 0 (p / q)) as [_|Hn]; [|contradiction].
  destruct (base_Int_part (p / q)) as [Hlo Hhi].
  set (n := IZR (Int_part (p / q))) in *.
  assert (Hmul : p = q * (p / q)) by (field; lra).
  split; nra.
Qed.

Lemma Ratan2_bound (p q : R) : - PI <= Ratan2 p q <= PI.
Proof.
  pose proof PI_RGT_0 as Hpi. pose proof (atan_bound (p / q)) as Hat.
  unfold Ratan2, sgn.
  destruct (Rlt_dec 0 q) as [Hq|Hq]; [lra|].
  destruct (Rlt_dec q 0) as [Hq'|Hq'].
  - assert (Hinv : / q < 0) by now apply Rinv_lt_0_compat.
    destruct (Rlt_dec p 0) as [Hp|Hp].
    + assert (0 < p / q) by (unfold Rdiv; nra).
      pose proof (atan_increasing 0 (p / q) ltac:(lra)) as Hinc.
      rewrite atan_0 in Hinc. lra.
    + assert (p / q <= 0) by (unfold Rdiv; nra).
      assert (atan (p / q) <= 0).
      { destruct (Req_dec_T (p / q) 0) as [->|Hne].
        - rewrite atan_0. lra.
        - pose proof (atan_increasing (p / q) 0 ltac:(lra)) as Hinc.
          rewrite atan_0 in Hinc. lra. }
      lra.
  - destruct (Rlt_dec 0 p); [lra|]. destruct (Rlt_dec p 0); lra.
Qed.

(** Lines 72-89 keep a finite azimuth of the range in the range. *)
Lemma tiltCompensate_range (a b g : R) :
  0 <= a < 360 ->
  exists c : R, tiltCompensate (Fin a) (Fin b) (Fin g) = Fin c /\ 0 <= c < 360.
Proof.
  intros Ha. unfold tiltCompensate.
  destruct ((Math_abs (Fin b) >? 5)%js || (Math_abs (Fin g) >? 5)%js);
    [|exists a; split; [reflexivity|exact Ha]].
  rewrite degToRad_Fin, radToDeg_Fin. unfold Math_PI.
  cbn [mul div Math_cos Math_sin add Math_atan2].
  destruct (Req_dec_T 180 0); [lra|].
  cbn [mul div Math_cos Math_sin add Math_atan2].
  match goal with
  | |- context [Ratan2 ?u ?v] =>
      pose proof (Ratan2_bound u v) as Hb; set (t := Ratan2 u v) in *
  end.
  apply rem_range; [|lra].
  pose proof PI_RGT_0 as Hpi.
  assert (Hk : t * (180 / PI) = 180 * (t / PI)) by (field; lra).
  assert (-1 <= t / PI <= 1).
  { split.
    - apply (Rmult_le_reg_r PI); [lra|]. unfold Rdiv.
      rewrite Rmult_assoc, Rinv_l by lra. lra.
    - apply (Rmult_le_reg_r PI); [lra|]. unfold Rdiv.
      rewrite Rmult_assoc, Rinv_l by lra. lra. }
  lra.
Qed.

(** Lines 92-101 keep the heading in the range when the filter holds a
    value of the range and its coefficient is the 0.2 it starts with. *)
Lemma lowPass_range (f : CompassFilter) (c : R) :
  alpha f = Fin 0.2 ->
  (lastValue f = None \/
   exists l : R, lastValue f = Some (Fin l) /\ 0 <= l < 360) ->
  0 <= c < 360 ->
  exists c' : R, snd (lowPass f (Fin c)) = Fin c' /\ 0 <= c' < 360.
Proof.
  intros Ha Hl Hc. unfold lowPass.
  destruct Hl as [->|(l & -> & Hl)].
  - exists c. split; [reflexivity|exact Hc].
  - rewrite Ha. cbn [snd mul sub neg add]. eexists.
    split; [reflexivity|]. lra.
Qed.

(** The Android branch of lines 106-108 keeps the heading in the range
    for a non-negative screen angle. *)
Lemma platformNormalize_android_range h event (c : R) :
  OrientationEvent.webkitCompassHeading event = Undefined ->
  (screenOrientationAngle h = None \/
   exists angle : R,
     screenOrientationAngle h = Some (Fin angle) /\ 0 <= angle) ->
  0 <= c < 360 ->
  exists c' : R,
    platformNormalize h event (Fin c) = Fin c' /\ 0 <= c' < 360.
Proof.
  intros Hw Hs Hc. unfold platformNormalize. rewrite Hw. cbn [defined].
  destruct Hs as [->|(angle & -> & Hangle)].
  - exists c. split; [reflexivity|exact Hc].
  - unfold num_or, truthy.
    destruct (Req_dec_T angle 0) as [->|_]; cbn [add];
      apply rem_range; lra.
Qed.

Lemma inRange360_Fin (c : R) :
  inRange360 (Fin c) = true <-> 0 <= c < 360.
Proof.
  unfold inRange360. rewrite andb_true_iff, le_Fin, lt_Fin. tauto.
Qed.

(** On the Android branch the stored heading lies in the range: finite
    readings with the azimuth in the range, the filter in the range, a
    non-negative screen angle. *)
Lemma android_heading_in_range h s event (a b g : R) :
  OrientationEvent.alpha event = Num (Fin a) ->
  OrientationEvent.beta event = Num (Fin b) ->
  OrientationEvent.gamma event = Num (Fin g) ->
  OrientationEvent.webkitCompassHeading event = Undefined ->
  0 <= a < 360 ->
  alpha (compassFilterRef s) = Fin 0.2 ->
  (lastValue (compassFilterRef s) = None \/
   exists l : R, lastValue (compassFilterRef s) = Some (Fin l)
                 /\ 0 <= l < 360) ->
  (screenOrientationAngle h = None \/
   exists angle : R,
     screenOrientationAngle h = Some (Fin angle) /\ 0 <= angle) ->
  inRange360 (heading (handleDeviceOrientation h s event)) = true.
Proof.
  intros Ea Eb Eg Ew Ha Hf Hl Hs.
  unfold handleDeviceOrientation. rewrite Ea, Eb, Eg.
  cbn [nullish number_not_NaN].
  destruct (tiltCompensate_range a b g Ha) as (c & -> & Hc).
  destruct (lowPass_range (compassFilterRef s) c Hf Hl Hc) as (c1 & E1 & Hc1).
  destruct (lowPass (compassFilterRef s) (Fin c)) as [filter c1'].
  cbn [snd] in E1. subst c1'.
  destruct (platformNormalize_android_range h event c1 Ew Hs Hc1)
    as (c2 & -> & Hc2).
  match goal with
  | |- context [if ?b then _ else _] => destruct b
  end; cbn [heading setHeading]; now apply inRange360_Fin.
Qed.

(** C1 at the failing input.  The first iOS compass event of a level
    device that points north (azimuth 0) stores the heading 360, which is
    outside the half-open range: the iOS branch of line 105 lacks the
    [% 360] that the Android branch of line 108 and the tilt compensation
    of line 88 apply. *)
Theorem ios_north_heading_is_360 (h : Host) :
  heading (handleDeviceOrientation h initialState iosNorth) = Fin 360 /\
  inRange360 (heading (handleDeviceOrientation h initialState iosNorth))
  = false.
Proof.
  assert (E : heading (handleDeviceOrientation h initialState iosNorth)
              = Fin 360).
  { unfold handleDeviceOrientation, iosNorth.
    cbn [OrientationEvent.alpha OrientationEvent.beta OrientationEvent.gamma
         OrientationEvent.webkitCompassHeading nullish number_not_NaN].
    assert (Ht : tiltCompensate (Fin 0) (Fin 0) (Fin 0) = Fin 0).
    { unfold tiltCompensate, gt. cbn [Math_abs]. rewrite Rabs_R0.
      destruct (lt (Fin 5) (Fin 0)) eqn:E5; [apply lt_Fin in E5; lra|].
      reflexivity. }
    rewrite Ht.
    cbn [lowPass initialState compassFilterRef lastValue
         platformNormalize OrientationEvent.webkitCompassHeading defined].
    match goal with
    | |- context [if ?b then _ else _] => destruct b
    end; cbn [heading setHeading sub neg add]; f_equal; lra. }
  split; [exact E|]. rewrite E. unfold inRange360.
  apply andb_false_iff. right. apply lt_Fin_false. lra.
Qed.

(** On the iOS branch the same readings give a heading in the interval
    from 0 (excluded) to 360 (included): the value 360 of the theorem
    above is the only one that leaves the range. *)
Lemma ios_heading_range h s event (a b g : R) :
  OrientationEvent.alpha event = Num (Fin a) ->
  OrientationEvent.beta event = Num (Fin b) ->
  OrientationEvent.gamma event = Num (Fin g) ->
  defined (OrientationEvent.webkitCompassHeading event) = true ->
  0 <= a < 360 ->
  alpha (compassFilterRef s) = Fin 0.2 ->
  (lastValue (compassFilterRef s) = None \/
   exists l : R, lastValue (compassFilterRef s) = Some (Fin l)
                 /\ 0 <= l < 360) ->
  exists c : R,
    heading (handleDeviceOrientation h s event) = Fin c /\ 0 < c <= 360.
Proof.
  intros Ea Eb Eg Ew Ha Hf Hl.
  unfold handleDeviceOrientation. rewrite Ea, Eb, Eg.
  cbn [nullish number_not_NaN].
  destruct (tiltCompensate_range a b g Ha) as (c & -> & Hc).
  destruct (lowPass_range (compassFilterRef s) c Hf Hl Hc) as (c1 & E1 & Hc1).
  destruct (lowPass (compassFilterRef s) (Fin c)) as [filter c1'].
  cbn [snd] in E1. subst c1'.
  unfold platformNormalize. rewrite Ew. cbn [sub neg add].
  exists (360 + - c1).
  match goal with
  | |- context [if ?b then _ else _] => destruct b
  end; cbn [heading setHeading]; (split; [reflexivity|lra]).
Qed.

(* ================================================================= *)
(** ** Orientation events: what is dropped and what is left alone *)

(** The orientation handler on a sample with three numbers. *)
Lemma handleDeviceOrientation_accepted h s event (a b g : num) :
  number_not_NaN (nullish (OrientationEvent.alpha event)
                    (OrientationEvent.webkitCompassHeading event)) = Some a ->
  number_not_NaN (OrientationEvent.beta event) = Some b ->
  number_not_NaN (OrientationEvent.gamma event) = Some g ->
  let filtered := lowPass (compassFilterRef s) (tiltCompensate a b g) in
  let newHeading := platformNormalize h event (snd filtered) in
  let jump := (Math_abs (newHeading - headingRef s) >? 20)%js in
  handleDeviceOrientation h s event
  = setHeading newHeading
      ((if jump then setIsCalibrating true else fun s => s)
         (assign_compassFilterRef (fst filtered) s)).
Proof.
  intros Ea Eb Eg. unfold handleDeviceOrientation. rewrite Ea, Eb, Eg.
  cbv zeta.
  destruct (lowPass (compassFilterRef s) (tiltCompensate a b g))
    as [filter c].
  cbn [fst snd headingRef assign_compassFilterRef].
  destruct (Math_abs (platformNormalize h event c - headingRef s) >? 20)%js;
    reflexivity.
Qed.

(** The orientation handler on a sample that fails the test of lines
    61-68. *)
Lemma handleDeviceOrientation_dropped h s event :
  number_not_NaN (nullish (OrientationEvent.alpha event)
                    (OrientationEvent.webkitCompassHeading event)) = None \/
  number_not_NaN (OrientationEvent.beta event) = None \/
  number_not_NaN (OrientationEvent.gamma event) = None ->
  handleDeviceOrientation h s event = s.
Proof.
  unfold handleDeviceOrientation.
  intros [E|[E|E]]; rewrite E;
    repeat match goal with
           | |- context [match ?o with Some _ => _ | None => _ end] =>
               destruct o
           end; reflexivity.
Qed.

(** X1.  An orientation event one of whose three readings is missing,
    [null] or NaN leaves the whole state as it is. *)
Theorem malformed_orientation_is_dropped h s event :
  number_not_NaN (nullish (OrientationEvent.alpha event)
                    (OrientationEvent.webkitCompassHeading event)) = None \/
  number_not_NaN (OrientationEvent.beta event) = None \/
  number_not_NaN (OrientationEvent.gamma event) = None ->
  handleDeviceOrientation h s event = s.
Proof. exact (handleDeviceOrientation_dropped h s event). Qed.

Lemma malformed_orientation_is_dropped_witness :
  handleDeviceOrientation host0 movingAlongX
    (OrientationEvent.mk (Num 10) (Num NaN) Null Undefined)
  = movingAlongX.
Proof.
  apply (malformed_orientation_is_dropped host0 movingAlongX
           (OrientationEvent.mk (Num 10) (Num NaN) Null Undefined)).
  right. left. reflexivity.
Defined.

(** What the orientation handler leaves alone. *)
Lemma handleDeviceOrientation_frame h s event :
  let s' := handleDeviceOrientation h s event in
  velocity s' = velocity s /\ position s' = position s /\
  path s' = path s /\ velRef s' = velRef s /\ posRef s' = posRef s /\
  pathRef s' = pathRef s /\ headingRef s' = headingRef s /\
  lastTimestampRef s' = lastTimestampRef s /\
  stationaryCountRef s' = stationaryCountRef s /\
  accelBiasRef s' = accelBiasRef s /\
  accelerometerData s' = accelerometerData s /\
  gyroscopeData s' = gyroscopeData s /\
  alpha (compassFilterRef s') = alpha (compassFilterRef s).
Proof.
  unfold handleDeviceOrientation.
  destruct (number_not_NaN _) as [a|]; [|cbn; repeat split].
  destruct (number_not_NaN _) as [b|]; [|cbn; repeat split].
  destruct (number_not_NaN _) as [g|]; [|cbn; repeat split].
  unfold lowPass.
  destruct (lastValue (compassFilterRef s)); cbv zeta;
    match goal with
    | |- context [if ?c then _ else _] => destruct c
    end; cbn; repeat split.
Qed.

(** X2.  An orientation event never touches the motion state: velocity,
    position and path (cells and references), the timestamp baseline, the
    stationary count, the bias, the mirrored heading and the display
    readings stay as they are, and so does the filter coefficient. *)
Theorem orientation_leaves_motion_state h s event :
  let s' := handleDeviceOrientation h s event in
  velocity s' = velocity s /\ position s' = position s /\
  path s' = path s /\ velRef s' = velRef s /\ posRef s' = posRef s /\
  pathRef s' = pathRef s /\ headingRef s' = headingRef s /\
  lastTimestampRef s' = lastTimestampRef s /\
  stationaryCountRef s' = stationaryCountRef s /\
  accelBiasRef s' = accelBiasRef s /\
  accelerometerData s' = accelerometerData s /\
  gyroscopeData s' = gyroscopeData s /\
  alpha (compassFilterRef s') = alpha (compassFilterRef s).
Proof. exact (handleDeviceOrientation_frame h s event). Qed.

(** X3.  The calibrating flag after an accepted orientation event is the
    flag before, raised when the new heading is more than 20 degrees away
    from the mirrored heading; the handler never lowers it. *)
Theorem calibrating_flag_is_raised_on_jump h s event (a b g : num) :
  number_not_NaN (nullish (OrientationEvent.alpha event)
                    (OrientationEvent.webkitCompassHeading event)) = Some a ->
  number_not_NaN (OrientationEvent.beta event) = Some b ->
  number_not_NaN (OrientationEvent.gamma event) = Some g ->
  let s' := handleDeviceOrientation h s event in
  isCalibrating s'
  = isCalibrating s || (Math_abs (heading s' - headingRef s) >? 20)%js.
Proof.
  intros Ea Eb Eg s'. subst s'.
  rewrite (handleDeviceOrientation_accepted h s event a b g Ea Eb Eg).
  cbv zeta. cbn [heading setHeading].
  destruct (Math_abs _ >? 20)%js; cbn.
  - now rewrite orb_true_r.
  - now rewrite orb_false_r.
Qed.

Lemma calibrating_flag_is_raised_on_jump_witness :
  let event := OrientationEvent.mk (Num 35) (Num 0) (Num 0) Undefined in
  let s' := handleDeviceOrientation host0 initialState event in
  isCalibrating s'
  = isCalibrating initialState
    || (Math_abs (heading s' - headingRef initialState) >? 20)%js.
Proof.
  apply (calibrating_flag_is_raised_on_jump host0 initialState
           (OrientationEvent.mk (Num 35) (Num 0) (Num 0) Undefined)
           (Fin 35) (Fin 0) (Fin 0)); reflexivity.
Defined.

(* ================================================================= *)
(** ** The heading over a run *)

(** The motion handler, the render and the reset leave the heading, its
    mirror, the calibrating flag and the filter alone. *)
Lemma handleDeviceMotion_heading_frame h s event :
  let s' := handleDeviceMotion h s event in
  heading s' = heading s /\ headingRef s' = headingRef s /\
  isCalibrating s' = isCalibrating s /\
  compassFilterRef s' = compassFilterRef s.
Proof.
  unfold handleDeviceMotion.
  destruct (showSensors_frame s event)
    as (_&_&_&Hh&Hc&_&_&_&Hhr&Hts&_&_&Hf).
  destruct (MotionEvent.acceleration event) as [acc|];
    [|cbv zeta; rewrite Hh, Hhr, Hc, Hf; repeat split].
  rewrite Hts. destruct (lastTimestampRef s) as [last|];
    [|cbn; rewrite Hh, Hhr, Hc, Hf; repeat split].
  cbv zeta. destruct (tooSoon _);
    [rewrite Hh, Hhr, Hc, Hf; repeat split|].
  unfold countStationary.
  destruct (Math_hypot _ _ <? stationaryThreshold)%js;
    destruct (stationarySamplesRequired <=? _)%nat;
    cbn; rewrite Hh, Hhr, Hc, Hf; repeat split.
Qed.

Lemma lowPass_filter_range (f : CompassFilter) (c : R) :
  filterInRange f ->
  0 <= c < 360 ->
  filterInRange (fst (lowPass f (Fin c))) /\
  exists c' : R, snd (lowPass f (Fin c)) = Fin c' /\ 0 <= c' < 360.
Proof.
  intros [Ha Hl] Hc. split; [|now apply lowPass_range].
  unfold lowPass, filterInRange.
  destruct Hl as [->|(l & -> & Hl)]; cbn [fst alpha lastValue].
  - split; [exact Ha|]. right. exists c. split; [reflexivity|exact Hc].
  - split; [exact Ha|]. right. rewrite Ha. cbn [mul sub neg add].
    eexists. split; [reflexivity|]. lra.
Qed.

Lemma platformNormalize_range h event (c : R) :
  screenAngleOk h ->
  0 <= c < 360 ->
  exists c' : R,
    platformNormalize h event (Fin c) = Fin c' /\ 0 <= c' <= 360.
Proof.
  intros Hs Hc.
  destruct (defined (OrientationEvent.webkitCompassHeading event)) eqn:Ew.
  - unfold platformNormalize. rewrite Ew. cbn [sub neg add].
    eexists. split; [reflexivity|]. lra.
  - assert (Hw : OrientationEvent.webkitCompassHeading event = Undefined)
      by (destruct (OrientationEvent.webkitCompassHeading event);
          [reflexivity|discriminate|discriminate]).
    destruct (platformNormalize_android_range h event c Hw Hs Hc)
      as (c' & E & Hc').
    exists c'. split; [exact E|lra].
Qed.

Lemma finite_inv (n : num) : finite n = true -> exists r : R, n = Fin r.
Proof. destruct n; try discriminate. intros _. now eexists. Qed.

Lemma orientation_keeps_headingBounded h s event :
  screenAngleOk h ->
  sensorRange event ->
  headingBounded s ->
  headingBounded (handleDeviceOrientation h s event).
Proof.
  intros Hs (Ra & Rb & Rg) [Hf Hh].
  destruct (number_not_NaN (nullish (OrientationEvent.alpha event)
              (OrientationEvent.webkitCompassHeading event))) as [a|] eqn:Ea;
    [|rewrite handleDeviceOrientation_dropped by (left; exact Ea);
      split; assumption].
  destruct (number_not_NaN (OrientationEvent.beta event)) as [b|] eqn:Eb;
    [|rewrite handleDeviceOrientation_dropped by (right; left; exact Eb);
      split; assumption].
  destruct (number_not_NaN (OrientationEvent.gamma event)) as [g|] eqn:Eg;
    [|rewrite handleDeviceOrientation_dropped by (right; right; exact Eg);
      split; assumption].
  destruct (Ra a eq_refl) as (ra & -> & Hra).
  destruct (finite_inv b (Rb b eq_refl)) as (rb & ->).
  destruct (finite_inv g (Rg g eq_refl)) as (rg & ->).
  rewrite (handleDeviceOrientation_accepted h s event _ _ _ Ea Eb Eg).
  cbv zeta.
  destruct (tiltCompensate_range ra rb rg Hra) as (c & -> & Hc).
  destruct (lowPass_filter_range (compassFilterRef s) c Hf Hc)
    as (Hf' & c1 & E1 & Hc1).
  rewrite E1.
  destruct (platformNormalize_range h event c1 Hs Hc1) as (c2 & -> & Hc2).
  unfold headingBounded.
  destruct (Math_abs _ >? 20)%js; cbn [compassFilterRef heading setHeading
    setIsCalibrating assign_compassFilterRef];
    (split; [exact Hf'|exists c2; split; [reflexivity|exact Hc2]]).
Qed.

(** X4.  Over any run of motion samples, orientation events, renders and
    resets, with orientation readings in the sensor's ranges and a screen
    angle that is not negative, the compass filter keeps a value from 0
    (included) to 360 (excluded) and the heading cell a finite value from
    0 to 360, both ends included. *)
Theorem heading_stays_bounded h s (l : list Action) :
  screenAngleOk h ->
  Forall inSensorRange l ->
  headingBounded s ->
  headingBounded (run h s l).
Proof.
  intros Hs Hl. revert s. unfold run.
  induction Hl as [|a l Ha Hl IH]; intros s Hb; cbn [fold_left];
    [exact Hb|].
  apply IH. destruct a as [event|event| |]; cbn [step].
  - destruct (handleDeviceMotion_heading_frame h s event)
      as (Eh & _ & _ & Ef).
    unfold headingBounded. rewrite Eh, Ef. exact Hb.
  - now apply orientation_keeps_headingBounded.
  - exact Hb.
  - exact Hb.
Qed.

Lemma heading_stays_bounded_witness :
  headingBounded
    (run host0 initialState
       [Orientation iosNorth; Render; Motion (motionAt noReading 5);
        ClearPath]).
Proof.
  apply (heading_stays_bounded host0 initialState
           [Orientation iosNorth; Render; Motion (motionAt noReading 5);
            ClearPath]).
  - left. reflexivity.
  - repeat constructor.
    + intros a E. injection E as <-. exists 0. split; [reflexivity|lra].
    + intros b E. injection E as <-. reflexivity.
    + intros g E. injection E as <-. reflexivity.
  - split.
    + split; [reflexivity|left; reflexivity].
    + exists 0. split; [reflexivity|lra].
Defined.

(* ================================================================= *)
(** ** Motion samples: seeding, outcomes and the path *)

(** The motion handler on a sample that finds no baseline. *)
Lemma handleDeviceMotion_seed h s event acc :
  MotionEvent.acceleration event = Some acc ->
  lastTimestampRef s = None ->
  let s' := handleDeviceMotion h s event in
  lastTimestampRef s' = Some (timestampOf h event) /\
  velocity s' = velocity s /\ velRef s' = velRef s /\
  position s' = position s /\ posRef s' = posRef s /\
  path s' = path s /\ pathRef s' = pathRef s /\
  stationaryCountRef s' = stationaryCountRef s /\
  accelBiasRef s' = accelBiasRef s.
Proof.
  intros Hacc Hts. unfold handleDeviceMotion. rewrite Hacc.
  destruct (showSensors_frame s event)
    as (Hv&Hp&Hpa&_&_&Hvr&Hpr&Hpar&_&Hts'&Hc&Hb&_).
  rewrite Hts', Hts. cbn.
  rewrite Hv, Hp, Hpa, Hvr, Hpr, Hpar, Hc, Hb. repeat split.
Qed.

(** X5.  The first motion sample after the baseline was cleared (session
    start, stop, reset) only seeds the baseline with its timestamp:
    velocity, position, path, stationary count and bias are untouched. *)
Theorem first_sample_only_seeds h s event acc :
  MotionEvent.acceleration event = Some acc ->
  lastTimestampRef s = None ->
  let s' := handleDeviceMotion h s event in
  lastTimestampRef s' = Some (timestampOf h event) /\
  velocity s' = velocity s /\ velRef s' = velRef s /\
  position s' = position s /\ posRef s' = posRef s /\
  path s' = path s /\ pathRef s' = pathRef s /\
  stationaryCountRef s' = stationaryCountRef s /\
  accelBiasRef s' = accelBiasRef s.
Proof. exact (handleDeviceMotion_seed h s event acc). Qed.

Lemma first_sample_only_seeds_witness :
  let s' := handleDeviceMotion host0 (clearPath movingAlongX)
              (motionAt noReading 7) in
  lastTimestampRef s' = Some (timestampOf host0 (motionAt noReading 7)) /\
  velocity s' = velocity (clearPath movingAlongX) /\
  velRef s' = velRef (clearPath movingAlongX) /\
  position s' = position (clearPath movingAlongX) /\
  posRef s' = posRef (clearPath movingAlongX) /\
  path s' = path (clearPath movingAlongX) /\
  pathRef s' = pathRef (clearPath movingAlongX) /\
  stationaryCountRef s' = stationaryCountRef (clearPath movingAlongX) /\
  accelBiasRef s' = accelBiasRef (clearPath movingAlongX).
Proof.
  apply (first_sample_only_seeds host0 (clearPath movingAlongX)
           (motionAt noReading 7) noReading); reflexivity.
Defined.

(** The three outcomes of a motion sample for velocity, position and
    path: nothing written, the stationary branch, the integration. *)
Lemma motion_outcomes h s event :
  let s' := handleDeviceMotion h s event in
  (velRef s' = velRef s /\ velocity s' = velocity s /\
   posRef s' = posRef s /\ position s' = position s /\
   pathRef s' = pathRef s /\ path s' = path s) \/
  (velRef s' = mkPoint 0 0 /\ velocity s' = mkPoint 0 0 /\
   posRef s' = posRef s /\ position s' = position s /\
   pathRef s' = pathRef s /\ path s' = path s) \/
  (velocity s' = velRef s' /\ position s' = posRef s' /\
   pathRef s' = pathRef s ++ [posRef s'] /\ path s' = pathRef s').
Proof.
  cbv zeta.
  destruct (showSensors_frame s event)
    as (Hv&Hp&Hpa&_&_&Hvr&Hpr&Hpar&_&Hts&_).
  destruct (accepted h s event) eqn:Hacc.
  - rewrite (handleDeviceMotion_accepted h s event Hacc). cbv zeta.
    set (s1 := assign_lastTimestampRef _ _).
    destruct (countStationary_frame (axRawOf event) (ayRawOf event) s1)
      as (Hv1&Hp1&Hpa1&Hvr1&Hpr1&Hpar1&_).
    destruct (stationarySamplesRequired <=? _)%nat.
    + right. left. unfold stationaryUpdate.
      cbn [velRef velocity position posRef path pathRef setVelocity
           assign_velRef assign_accelBiasRef].
      rewrite Hp1, Hpa1, Hpr1, Hpar1. subst s1.
      cbn [position posRef path pathRef assign_lastTimestampRef].
      rewrite Hp, Hpa, Hpr, Hpar. repeat split.
    + right. right. unfold integrate.
      cbn [velRef velocity position posRef path pathRef setVelocity
           setPosition setPath assign_velRef assign_posRef assign_pathRef].
      rewrite Hpar1. subst s1. cbn [pathRef assign_lastTimestampRef].
      rewrite Hpar. repeat split.
  - left. unfold accepted in Hacc. unfold handleDeviceMotion.
    rewrite Hts.
    destruct (MotionEvent.acceleration event) as [acc|];
      [|cbv zeta; rewrite Hv, Hp, Hpa, Hvr, Hpr, Hpar; repeat split].
    destruct (lastTimestampRef s) as [last|];
      [|cbn; rewrite Hv, Hp, Hpa, Hvr, Hpr, Hpar; repeat split].
    apply negb_false_iff in Hacc. cbv zeta. rewrite Hacc.
    rewrite Hv, Hp, Hpa, Hvr, Hpr, Hpar. repeat split.
Qed.

Lemma motion_keeps_synced h s event :
  motionSynced s ->
  motionSynced (handleDeviceMotion h s event) /\
  exists suffix, path (handleDeviceMotion h s event) = path s ++ suffix.
Proof.
  intros (Hv & Hp & Hpa). unfold motionSynced.
  destruct (motion_outcomes h s event)
    as [(E1&E2&E3&E4&E5&E6)|[(E1&E2&E3&E4&E5&E6)|(E1&E2&E3&E4)]].
  - rewrite E1, E2, E3, E4, E5, E6. repeat split; trivial.
    exists []. now rewrite app_nil_r.
  - rewrite E1, E2, E3, E4, E5, E6. repeat split; trivial.
    exists []. now rewrite app_nil_r.
  - rewrite E1, E2, E4. repeat split.
    rewrite E3, Hpa. now eexists.
Qed.

(** X6.  From a state whose motion references mirror their cells, a run
    of motion samples, orientation events and renders (no reset) keeps
    them mirrored, and the path cell only grows at its end: it is the old
    path followed by the points added since. *)
Theorem path_is_append_only h s (l : list Action) :
  motionSynced s ->
  forallb (fun a => negb (isClearPath a)) l = true ->
  motionSynced (run h s l) /\
  exists suffix, path (run h s l) = path s ++ suffix.
Proof.
  unfold run. revert s.
  induction l as [|a l IH]; intros s Hs Hl; cbn [fold_left].
  - split; [exact Hs|]. exists []. now rewrite app_nil_r.
  - cbn [forallb] in Hl. apply andb_true_iff in Hl as [Ha Hl].
    assert (Hstep : motionSynced (step h s a) /\
                    exists suffix, path (step h s a) = path s ++ suffix).
    { destruct a as [event|event| |]; cbn [step].
      - now apply motion_keeps_synced.
      - destruct (handleDeviceOrientation_frame h s event)
          as (E1&E2&E3&E4&E5&E6&_).
        destruct Hs as (Hv & Hp & Hpa). unfold motionSynced.
        rewrite E1, E2, E3, E4, E5, E6. repeat split; trivial.
        exists []. now rewrite app_nil_r.
      - split; [repeat split|]. exists []. cbn. now rewrite app_nil_r.
      - discriminate. }
    destruct Hstep as (Hs' & suffix1 & E1).
    destruct (IH _ Hs' Hl) as (Hs'' & suffix2 & E2).
    split; [exact Hs''|]. exists (suffix1 ++ suffix2).
    rewrite E2, E1, app_assoc. reflexivity.
Qed.

Lemma path_is_append_only_witness :
  let l := [Motion (motionAt noReading 1000); Render;
            Orientation iosNorth; Motion (motionAt noReading 2000)] in
  motionSynced (run host0 (seededAt 0) l) /\
  exists suffix, path (run host0 (seededAt 0) l)
                 = path (seededAt 0) ++ suffix.
Proof.
  apply (path_is_append_only host0 (seededAt 0)
           [Motion (motionAt noReading 1000); Render;
            Orientation iosNorth; Motion (motionAt noReading 2000)]).
  - repeat split.
  - reflexivity.
Defined.

(** The render and the reset re-establish the mirroring. *)
Lemma commit_synced s : motionSynced (commit s).
Proof. repeat split. Qed.

Lemma step_keeps_pathEndsAtPosition h s a :
  pathEndsAtPosition s -> pathEndsAtPosition (step h s a).
Proof.
  intros [front Hp]. unfold pathEndsAtPosition.
  destruct a as [event|event| |]; cbn [step].
  - destruct (motion_outcomes h s event)
      as [(_&_&_&E4&_&E6)|[(_&_&_&E4&_&E6)|(_&E2&E3&E4)]].
    + rewrite E4, E6. now exists front.
    + rewrite E4, E6. now exists front.
    + rewrite E4, E3, E2. now eexists.
  - destruct (handleDeviceOrientation_frame h s event) as (_&E2&E3&_).
    rewrite E2, E3. now exists front.
  - cbn. now exists front.
  - cbn. now exists [].
Qed.

(** X7.  In every state the component reaches from its first render,
    whatever the events, renders and resets, the path cell is not empty
    and its last point is the position cell. *)
Theorem path_ends_at_position h (l : list Action) :
  pathEndsAtPosition (run h initialState l) /\
  path (run h initialState l) <> [].
Proof.
  assert (H : forall l s, pathEndsAtPosition s ->
                          pathEndsAtPosition (run h s l)).
  { unfold run. induction l0 as [|a l0 IH]; intros s Hs; cbn [fold_left];
      [exact Hs|].
    apply IH. now apply step_keeps_pathEndsAtPosition. }
  assert (Hinit : pathEndsAtPosition initialState) by now exists [].
  pose proof (H l initialState Hinit) as [front E].
  split; [now exists front|].
  rewrite E. intros E'. symmetry in E'. now apply app_cons_not_nil in E'.
Qed.

(** X8.  An accepted sample whose raw magnitude is not below 0.12 sets the
    stationary count back to 0, whatever it was, and is integrated: the
    path reference grows by the new position. *)
Theorem loud_sample_restarts_count h s event :
  accepted h s event = true ->
  belowThreshold event = false ->
  let s' := handleDeviceMotion h s event in
  stationaryCountRef s' = 0%nat /\
  integrated h s event = true /\
  pathRef s' = pathRef s ++ [posRef s'] /\
  accelBiasRef s' = accelBiasRef s.
Proof.
  intros Hacc Hloud s'.
  assert (Hc : forall t, stationaryCountRef
                 (countStationary (axRawOf event) (ayRawOf event) t) = 0%nat).
  { intros t. unfold countStationary.
    unfold belowThreshold in Hloud. rewrite Hloud. reflexivity. }
  assert (Hint : integrated h s event = true).
  { unfold integrated. rewrite Hacc, Hc. reflexivity. }
  destruct (integrated_branch h s event Hint) as (_&_&Hpos&_&Hpath&_).
  fold s' in Hpos, Hpath.
  split; [|split; [exact Hint|split; [now rewrite Hpath, Hpos|]]].
  - subst s'. rewrite (handleDeviceMotion_accepted h s event Hacc).
    cbv zeta. rewrite Hc. cbn [Nat.leb stationarySamplesRequired].
    rewrite integrate_count. apply Hc.
  - subst s'. rewrite (handleDeviceMotion_accepted h s event Hacc).
    cbv zeta. rewrite Hc. cbn [Nat.leb stationarySamplesRequired].
    set (s1 := assign_lastTimestampRef _ _).
    destruct (countStationary_frame (axRawOf event) (ayRawOf event) s1)
      as (_&_&_&_&_&_&_&_&Hb).
    unfold integrate. cbn [accelBiasRef setPath assign_pathRef setPosition
      setVelocity assign_posRef assign_velRef].
    rewrite Hb. subst s1. cbn [accelBiasRef assign_lastTimestampRef].
    now destruct (showSensors_frame s event) as (_&_&_&_&_&_&_&_&_&_&_&Hb'&_).
Qed.

Lemma belowThreshold_sampleSmallX : belowThreshold sampleSmallX = false.
Proof.
  unfold belowThreshold, axRawOf, ayRawOf, sampleSmallX.
  cbn [motionAt MotionEvent.acceleration fst3 snd3]. rewrite !or_Fin.
  unfold Math_hypot, stationaryThreshold. apply lt_Fin_false.
  rewrite <- (sqrt_square 0.12) by lra.
  apply sqrt_le_1_alt. lra.
Qed.

Lemma loud_sample_restarts_count_witness :
  let s' := handleDeviceMotion host0 movingAlongX sampleSmallX in
  stationaryCountRef s' = 0%nat /\
  integrated host0 movingAlongX sampleSmallX = true /\
  pathRef s' = pathRef movingAlongX ++ [posRef s'] /\
  accelBiasRef s' = accelBiasRef movingAlongX.
Proof.
  apply (loud_sample_restarts_count host0 movingAlongX sampleSmallX).
  - apply (accepted_spaced host0 movingAlongX 0 1000); [reflexivity|lra].
  - exact belowThreshold_sampleSmallX.
Defined.

(* ================================================================= *)
(** ** Finite inputs keep the state finite *)

Lemma finiteState_fields (s : DRState) :
  finiteState s = true <->
  (finitePoint (velocity s) = true /\ finitePoint (position s) = true /\
   forallb finitePoint (path s) = true /\ finite (heading s) = true /\
   finitePoint (velRef s) = true /\ finitePoint (posRef s) = true /\
   forallb finitePoint (pathRef s) = true /\ finite (headingRef s) = true /\
   finiteOption (lastTimestampRef s) = true /\
   finitePoint (accelBiasRef s) = true /\
   finiteOption (lastValue (compassFilterRef s)) = true /\
   finite (alpha (compassFilterRef s)) = true).
Proof.
  unfold finiteState. rewrite !andb_true_iff. tauto.
Qed.

Lemma finitePoint_inv (p : Point) :
  finitePoint p = true -> exists a b : R, p = mkPoint (Fin a) (Fin b).
Proof.
  destruct p as [[a| | |] [b| | |]]; try discriminate.
  intros _. now exists a, b.
Qed.

Lemma or_finite (v : value) :
  notInfinite v = true -> exists r : R, or v (Fin 0) = Fin r.
Proof.
  destruct v as [| |[r| | |]]; try discriminate; intros _; cbn [or].
  - now exists 0.
  - now exists 0.
  - unfold num_or. destruct (truthy (Fin r)); now eexists.
  - now exists 0.
Qed.

Lemma applyDeadzone_finite (u : R) :
  exists r : R, applyDeadzone (Fin u) = Fin r.
Proof.
  unfold applyDeadzone. destruct (Math_abs (Fin u) >? deadzone)%js;
    now eexists.
Qed.

Lemma finiteState_showSensors s event :
  finiteState (showSensors s event) = finiteState s.
Proof.
  unfold showSensors.
  destruct (MotionEvent.accelerationIncludingGravity event),
    (MotionEvent.rotationRate event); reflexivity.
Qed.

Lemma finiteState_countStationary ax ay s :
  finiteState (countStationary ax ay s) = finiteState s /\
  velRef (countStationary ax ay s) = velRef s /\
  posRef (countStationary ax ay s) = posRef s /\
  pathRef (countStationary ax ay s) = pathRef s /\
  headingRef (countStationary ax ay s) = headingRef s /\
  accelBiasRef (countStationary ax ay s) = accelBiasRef s.
Proof.
  unfold countStationary.
  destruct (Math_hypot ax ay <? stationaryThreshold)%js; repeat split.
Qed.

Lemma finiteState_baseline (t : R) s :
  finiteState s = true ->
  finiteState (assign_lastTimestampRef (Some (Fin t)) s) = true.
Proof.
  rewrite !finiteState_fields. cbn. tauto.
Qed.

Lemma finiteState_stationaryUpdate (ax ay : R) s :
  finiteState s = true ->
  finiteState (stationaryUpdate (Fin ax) (Fin ay) s) = true.
Proof.
  rewrite !finiteState_fields.
  intros (H1&H2&H3&H4&H5&H6&H7&H8&H9&H10&H11&H12).
  destruct (finitePoint_inv _ H10) as (bx & by_ & Eb).
  unfold stationaryUpdate. rewrite Eb.
  cbn. repeat split; assumption.
Qed.

Lemma finiteState_integrate (ax ay dt : R) s :
  finiteState s = true ->
  finiteState (integrate (Fin ax) (Fin ay) (Fin dt) s) = true.
Proof.
  rewrite !finiteState_fields.
  intros (H1&H2&H3&H4&H5&H6&H7&H8&H9&H10&H11&H12).
  destruct (finitePoint_inv _ H5) as (vx & vy & Ev).
  destruct (finitePoint_inv _ H6) as (px & py & Ep).
  destruct (finitePoint_inv _ H10) as (bx & by_ & Eb).
  destruct (finite_inv _ H8) as (hd & Eh).
  unfold integrate. rewrite Ev, Ep, Eb, (headingRadOf_Fin s hd Eh).
  cbn [x y sub neg add].
  destruct (applyDeadzone_finite (ax + - bx)) as (dx & ->).
  destruct (applyDeadzone_finite (ay + - by_)) as (dy & ->).
  unfold worldAxOf, worldAyOf, dampedVelocity, damping.
  cbn [Math_cos Math_sin Math_exp mul add neg].
  cbn [velocity position path heading velRef posRef pathRef headingRef
       lastTimestampRef accelBiasRef compassFilterRef setVelocity
       setPosition setPath assign_velRef assign_posRef assign_pathRef].
  rewrite Eb, forallb_app. cbn [forallb finitePoint finite x y andb].
  rewrite H7. repeat split; assumption.
Qed.

Lemma finiteOption_inv (o : option num) :
  finiteOption o = true -> o = None \/ exists r : R, o = Some (Fin r).
Proof.
  destruct o as [[r| | |]|]; try discriminate; intros _;
    [right; now exists r | now left].
Qed.

Lemma motion_keeps_finite h s event :
  finiteState s = true ->
  finiteAction h (Motion event) = true ->
  finiteState (handleDeviceMotion h s event) = true.
Proof.
  intros Hs Ha. cbn [finiteAction] in Ha.
  apply andb_true_iff in Ha as [Hnow Hacc].
  destruct (finite_inv _ Hnow) as (now & Enow).
  unfold handleDeviceMotion.
  destruct (MotionEvent.acceleration event) as [acc|];
    [|now rewrite finiteState_showSensors].
  apply andb_true_iff in Hacc as [Hx Hy].
  destruct (or_finite _ Hx) as (ax & Eax).
  destruct (or_finite _ Hy) as (ay & Eay).
  assert (Hs1 : finiteState (showSensors s event) = true)
    by now rewrite finiteState_showSensors.
  cbv zeta. rewrite Enow, Eax, Eay.
  destruct (lastTimestampRef (showSensors s event)) as [last|] eqn:Ets;
    [|now apply finiteState_baseline].
  assert (Hlast : exists t0 : R, last = Fin t0).
  { apply finiteState_fields in Hs1.
    destruct Hs1 as (_&_&_&_&_&_&_&_&H9&_). rewrite Ets in H9.
    now apply finite_inv. }
  destruct Hlast as (t0 & ->). rewrite deltaTimeOf_Fin.
  destruct (tooSoon _); [exact Hs1|].
  set (s1 := assign_lastTimestampRef _ _).
  assert (Hs2 : finiteState s1 = true) by now apply finiteState_baseline.
  destruct (finiteState_countStationary (Fin ax) (Fin ay) s1) as (E & _).
  destruct (stationarySamplesRequired <=? _)%nat.
  - apply finiteState_stationaryUpdate. now rewrite E.
  - apply finiteState_integrate. now rewrite E.
Qed.

Lemma rem_finite (p q : R) :
  q <> 0 -> exists r : R, (Fin p %% Fin q)%js = Fin r.
Proof.
  intros Hq. unfold rem. destruct (Req_dec_T q 0); [contradiction|].
  now eexists.
Qed.

Lemma tiltCompensate_finite (a b g : R) :
  exists c : R, tiltCompensate (Fin a) (Fin b) (Fin g) = Fin c.
Proof.
  unfold tiltCompensate.
  destruct ((Math_abs (Fin b) >? 5)%js || (Math_abs (Fin g) >? 5)%js);
    [|now exists a].
  rewrite degToRad_Fin, radToDeg_Fin. unfold Math_PI.
  cbn [mul div Math_cos Math_sin add Math_atan2].
  destruct (Req_dec_T 180 0); [lra|].
  cbn [mul div Math_cos Math_sin add Math_atan2].
  apply rem_finite. lra.
Qed.

Lemma number_not_NaN_finite (v : value) (n : num) :
  notInfinite v = true -> number_not_NaN v = Some n -> finite n = true.
Proof.
  destruct v as [| |[r| | |]]; try discriminate; intros _ E;
    injection E as <-; reflexivity.
Qed.

Lemma orientation_keeps_finite h s event :
  finiteHost h = true ->
  finiteState s = true ->
  finiteAction h (Orientation event) = true ->
  finiteState (handleDeviceOrientation h s event) = true.
Proof.
  intros Hh Hs Ha. cbn [finiteAction] in Ha.
  apply andb_true_iff in Ha as [Ha Hg].
  apply andb_true_iff in Ha as [Ha Hb].
  destruct (number_not_NaN (nullish (OrientationEvent.alpha event)
              (OrientationEvent.webkitCompassHeading event))) as [a|] eqn:Ea;
    [|now rewrite handleDeviceOrientation_dropped by (left; exact Ea)].
  destruct (number_not_NaN (OrientationEvent.beta event)) as [b|] eqn:Eb;
    [|now rewrite handleDeviceOrientation_dropped
        by (right; left; exact Eb)].
  destruct (number_not_NaN (OrientationEvent.gamma event)) as [g|] eqn:Eg;
    [|now rewrite handleDeviceOrientation_dropped
        by (right; right; exact Eg)].
  destruct (finite_inv _ (number_not_NaN_finite _ _ Ha Ea)) as (ra & ->).
  destruct (finite_inv _ (number_not_NaN_finite _ _ Hb Eb)) as (rb & ->).
  destruct (finite_inv _ (number_not_NaN_finite _ _ Hg Eg)) as (rg & ->).
  rewrite (handleDeviceOrientation_accepted h s event _ _ _ Ea Eb Eg).
  cbv zeta.
  destruct (tiltCompensate_finite ra rb rg) as (c & ->).
  apply finiteState_fields in Hs.
  destruct Hs as (H1&H2&H3&H4&H5&H6&H7&H8&H9&H10&H11&H12).
  destruct (finite_inv _ H12) as (al & Eal).
  assert (Hlow : exists c1 : R,
            snd (lowPass (compassFilterRef s) (Fin c)) = Fin c1 /\
            lastValue (fst (lowPass (compassFilterRef s) (Fin c)))
            = Some (Fin c1) /\
            alpha (fst (lowPass (compassFilterRef s) (Fin c))) = Fin al).
  { unfold lowPass.
    destruct (finiteOption_inv _ H11) as [->|(l & ->)].
    - exists c. repeat split. exact Eal.
    - rewrite Eal. cbn [fst snd lastValue alpha mul sub neg add].
      eexists. repeat split. }
  destruct Hlow as (c1 & E1 & Elv & Eal'). rewrite E1.
  assert (Hnorm : exists c2 : R, platformNormalize h event (Fin c1) = Fin c2).
  { unfold platformNormalize.
    destruct (defined _); [cbn [sub neg add]; now eexists|].
    unfold finiteHost in Hh. apply andb_true_iff in Hh as [Hang _].
    destruct (finiteOption_inv _ Hang) as [->|(angle & ->)];
      [now eexists|].
    unfold num_or. destruct (truthy (Fin angle)); cbn [add];
      apply rem_finite; lra. }
  destruct Hnorm as (c2 & ->).
  apply finiteState_fields.
  destruct (Math_abs _ >? 20)%js;
    cbn [velocity position path heading velRef posRef pathRef headingRef
         lastTimestampRef accelBiasRef compassFilterRef setHeading
         setIsCalibrating assign_compassFilterRef];
    rewrite Elv, Eal'; repeat split; assumption.
Qed.

(** X9.  With finite inputs the state stays finite.  From a state whose
    numbers are all finite, over any run of motion samples, orientation
    events, renders and resets whose readings are not infinite (missing
    and NaN readings are allowed) and whose motion timestamps are finite,
    every number of the state is finite again: velocity, position, every
    path point, heading, bias, baseline and filter.  Finite arithmetic is
    exact in this model, so overflow is not covered. *)
Theorem finite_inputs_keep_state_finite h s (l : list Action) :
  finiteHost h = true ->
  finiteState s = true ->
  forallb (finiteAction h) l = true ->
  finiteState (run h s l) = true.
Proof.
  intros Hh. unfold run. revert s.
  induction l as [|a l IH]; intros s Hs Hl; cbn [fold_left]; [exact Hs|].
  cbn [forallb] in Hl. apply andb_true_iff in Hl as [Ha Hl].
  apply IH; [|exact Hl].
  destruct a as [event|event| |]; cbn [step].
  - now apply motion_keeps_finite.
  - now apply orientation_keeps_finite.
  - apply finiteState_fields in Hs. apply finiteState_fields.
    cbn. tauto.
  - apply finiteState_fields in Hs. apply finiteState_fields.
    cbn. tauto.
Qed.

Lemma finite_inputs_keep_state_finite_witness :
  finiteState
    (run host0 initialState
       [Motion (motionAt noReading 0); Orientation iosNorth; Render;
        Motion sampleSmallX; Motion sampleWithoutX; ClearPath])
  = true.
Proof.
  apply (finite_inputs_keep_state_finite host0 initialState
           [Motion (motionAt noReading 0); Orientation iosNorth; Render;
            Motion sampleSmallX; Motion sampleWithoutX; ClearPath]);
    reflexivity.
Defined.

(* ================================================================= *)
(** ** The bias estimate is written by the stationary branch alone *)

(** X10.  The bias estimate changes only in the stationary branch.  When
    an action changes it, the action is a motion sample that was accepted,
    had a raw magnitude below 0.12 and found the stationary count at five
    or more; every other motion sample, every orientation event, render
    and reset leaves the bias as it is. *)
Theorem bias_changes_only_when_stationary h s (a : Action) :
  accelBiasRef (step h s a) <> accelBiasRef s ->
  exists event,
    a = Motion event /\ accepted h s event = true /\
    belowThreshold event = true /\ (5 <= stationaryCountRef s)%nat.
Proof.
  intros Hne. destruct a as [event|event| |]; cbn [step] in Hne.
  - exists event. split; [reflexivity|].
    destruct (showSensors_frame s event)
      as (_&_&_&_&_&_&_&_&_&Hts&Hc&Hb&_).
    destruct (accepted h s event) eqn:Hacc.
    + split; [reflexivity|].
      rewrite (handleDeviceMotion_accepted h s event Hacc) in Hne.
      cbv zeta in Hne.
      set (s1 := assign_lastTimestampRef _ _) in Hne.
      destruct (countStationary_frame (axRawOf event) (ayRawOf event) s1)
        as (_&_&_&_&_&_&_&_&Hb1).
      assert (Hb0 : accelBiasRef s1 = accelBiasRef s) by exact Hb.
      assert (Hc0 : stationaryCountRef s1 = stationaryCountRef s)
        by exact Hc.
      destruct (stationarySamplesRequired <=? _)%nat eqn:Hbranch.
      * apply Nat.leb_le in Hbranch.
        destruct (belowThreshold event) eqn:Hlow.
        -- split; [reflexivity|].
           rewrite (countStationary_below _ _ s1 Hlow), Hc0 in Hbranch.
           unfold stationarySamplesRequired in Hbranch. lia.
        -- exfalso. unfold countStationary in Hbranch.
           unfold belowThreshold in Hlow. rewrite Hlow in Hbranch.
           cbn in Hbranch. unfold stationarySamplesRequired in Hbranch. lia.
      * exfalso. apply Hne. unfold integrate.
        cbn [accelBiasRef setPath assign_pathRef setPosition setVelocity
             assign_posRef assign_velRef].
        now rewrite Hb1.
    + exfalso. apply Hne. unfold accepted in Hacc.
      unfold handleDeviceMotion. rewrite Hts.
      destruct (MotionEvent.acceleration event) as [acc|]; [|exact Hb].
      destruct (lastTimestampRef s) as [last|]; [|exact Hb].
      apply negb_false_iff in Hacc. cbv zeta. rewrite Hacc. exact Hb.
  - exfalso. apply Hne.
    now destruct (handleDeviceOrientation_frame h s event)
      as (_&_&_&_&_&_&_&_&_&Hb&_).
  - exfalso. now apply Hne.
  - exfalso. now apply Hne.
Qed.

Lemma bias_changes_only_when_stationary_witness :
  exists event,
    Motion (motionAt noReading 60) = Motion event /\
    accepted host0 restingState event = true /\
    belowThreshold event = true /\
    (5 <= stationaryCountRef restingState)%nat.
Proof.
  apply (bias_changes_only_when_stationary host0 restingState
           (Motion (motionAt noReading 60))).
  cbn [step].
  destruct (quiet_step host0 restingState 0 60 false eq_refl ltac:(lra))
    as (Hacc & Hlow & _).
  assert (Hn : (stationarySamplesRequired
                <= S (stationaryCountRef restingState))%nat).
  { unfold stationarySamplesRequired.
    change (stationaryCountRef restingState) with 5%nat. lia. }
  destruct (stationary_branch host0 restingState (motionAt noReading 60)
              Hacc Hlow Hn) as (_&_&_&_&_&_&Hbias).
  rewrite Hbias.
  change (accelBiasRef restingState) with (mkPoint (Fin 0.1) (Fin 0)).
  cbn [x y]. unfold axRawOf, ayRawOf.
  cbn [motionAt MotionEvent.acceleration noReading fst3 snd3].
  rewrite or_Fin. cbn [mul add].
  intros E. injection E as E _. lra.
Defined.

(** X11.  The path is never thinned out.  An integrated sample that finds
    the device at rest (zero velocity, no world-frame acceleration, finite
    position and elapsed time) leaves the position where it was and still
    appends it to the path as one more point. *)
Theorem rest_sample_repeats_position h s event (px py dt : R) :
  integrated h s event = true ->
  velRef s = mkPoint (Fin 0) (Fin 0) ->
  posRef s = mkPoint (Fin px) (Fin py) ->
  elapsed h s event = Fin dt ->
  worldAxOf (headingRadOf s) (applyDeadzone (axUnbiasedOf s event))
    (applyDeadzone (ayUnbiasedOf s event)) = Fin 0 ->
  worldAyOf (headingRadOf s) (applyDeadzone (axUnbiasedOf s event))
    (applyDeadzone (ayUnbiasedOf s event)) = Fin 0 ->
  let s' := handleDeviceMotion h s event in
  posRef s' = posRef s /\ position s' = posRef s /\
  pathRef s' = pathRef s ++ [posRef s] /\
  path s' = pathRef s ++ [posRef s] /\
  velRef s' = mkPoint (Fin 0) (Fin 0).
Proof.
  intros Hint Hv Hp Hdt Hwx Hwy s'.
  destruct (integrated_branch h s event Hint)
    as (Hvel & _ & Hpos & Hposc & Hpath & Hpathc).
  fold s' in Hvel, Hpos, Hposc, Hpath, Hpathc.
  rewrite Hwx, Hwy, Hdt, Hv, Hp in *. cbn [x y] in *.
  rewrite !dampedVelocity_free in *. cbn [mul add] in *.
  assert (E : mkPoint (Fin (px + 0 * exp (- dt) * dt))
                      (Fin (py + 0 * exp (- dt) * dt))
              = mkPoint (Fin px) (Fin py))
    by (f_equal; f_equal; ring).
  rewrite E in *.
  repeat split; try assumption.
  rewrite Hvel. f_equal; f_equal; ring.
Qed.

Lemma rest_sample_repeats_position_witness :
  let s' := handleDeviceMotion host0 (seededAt 0)
              (motionAt noReading 1000) in
  posRef s' = posRef (seededAt 0) /\
  position s' = posRef (seededAt 0) /\
  pathRef s' = pathRef (seededAt 0) ++ [posRef (seededAt 0)] /\
  path s' = pathRef (seededAt 0) ++ [posRef (seededAt 0)] /\
  velRef s' = mkPoint (Fin 0) (Fin 0).
Proof.
  apply (rest_sample_repeats_position host0 (seededAt 0)
           (motionAt noReading 1000) 0 0 ((1000 - 0) / 1000)).
  - apply (integrated_spaced host0 (seededAt 0) 0 1000);
      [reflexivity | lra | cbn; lia].
  - reflexivity.
  - reflexivity.
  - apply elapsed_Fin. reflexivity.
  - apply (rest_sample_no_acceleration (seededAt 0) _ 0);
      try reflexivity; apply or_Fin.
  - apply (rest_sample_no_acceleration (seededAt 0) _ 0);
      try reflexivity; apply or_Fin.
Defined.

(* ================================================================= *)
(** ** The ground-truth trace over a stream of fixes *)

Lemma flatEarthMeters_self (p : R * R) : flatEarthMeters p p = 0.
Proof.
  unfold flatEarthMeters.
  replace (((fst p - fst p) * 111320) ^ 2
           + ((snd p - snd p) * 111320 * cos (fst p * PI / 180)) ^ 2)
    with 0 by ring.
  apply sqrt_0.
Qed.

Lemma ingest_finite_cases (prev : list (R * R)) (q : R * R) :
  (Exists (fun p => flatEarthMeters p q < 0.5) prev /\
   ingestGroundTruth (map latLon prev) (latLon q) = map latLon prev) \/
  (Forall (fun p => 0.5 <= flatEarthMeters p q) prev /\
   ingestGroundTruth (map latLon prev) (latLon q)
   = map latLon (prev ++ [q])).
Proof.
  unfold ingestGroundTruth.
  destruct (isDuplicate (map latLon prev) (latLon q)) eqn:E.
  - left. split; [now apply isDuplicate_finite|reflexivity].
  - right. split.
    + apply not_Exists_close. intros Hex.
      apply isDuplicate_finite in Hex. congruence.
    + now rewrite map_app.
Qed.

(** X12.  Storing is idempotent on finite coordinates: a fix that was
    just ingested is a duplicate of itself or of the point that hid it,
    so ingesting it once more changes nothing. *)
Theorem ingestGroundTruth_idempotent (prev : list (R * R)) (q : R * R) :
  ingestGroundTruth (ingestGroundTruth (map latLon prev) (latLon q))
    (latLon q)
  = ingestGroundTruth (map latLon prev) (latLon q).
Proof.
  destruct (ingest_finite_cases prev q) as [[Hex E]|[_ E]]; rewrite E.
  - exact E.
  - destruct (ingest_finite_cases (prev ++ [q]) q) as [[_ E']|[Hall _]];
      [exact E'|].
    apply Forall_app in Hall as [_ Hq]. inversion Hq as [|? ? Hd _]; subst.
    rewrite flatEarthMeters_self in Hd. lra.
Qed.

Lemma separated_snoc (l : list (R * R)) (q : R * R) :
  separated l ->
  Forall (fun p => 0.5 <= flatEarthMeters p q) l ->
  separated (l ++ [q]).
Proof.
  induction l as [|p l IH]; intros Hs Hq; cbn [app separated].
  - split; [constructor|exact I].
  - destruct Hs as [Hp Hs]. inversion Hq as [|? ? Hpq Hq']; subst.
    split.
    + apply Forall_app. split; [exact Hp|]. constructor; [exact Hpq|].
      constructor.
    + now apply IH.
Qed.

(** X13.  Over any stream of finite fixes the trace only grows at its
    end, by fixes of the stream; its points stay separated (each at least
    0.5 m from every point stored before it); and every fix of the stream
    is within 0.5 m of a stored point, itself when it was stored. *)
Theorem trace_is_separated_cover (fixes : list (R * R)) :
  forall stored : list (R * R),
  separated stored ->
  exists kept : list (R * R),
    traceFrom (map latLon stored) (map latLon fixes)
    = map latLon (stored ++ kept) /\
    separated (stored ++ kept) /\
    (forall q, In q kept -> In q fixes) /\
    (length kept <= length fixes)%nat /\
    (forall q, In q fixes ->
       Exists (fun p => flatEarthMeters p q < 0.5) (stored ++ kept)).
Proof.
  induction fixes as [|q fixes IH]; intros stored Hs.
  - exists []. rewrite app_nil_r. cbn. repeat split; trivial.
    intros q [].
  - cbn [map traceFrom fold_left].
    destruct (ingest_finite_cases stored q) as [[Hex E]|[Hall E]];
      rewrite E.
    + destruct (IH stored Hs) as (kept & Ht & Hsep & Hin & Hlen & Hcov).
      exists kept. split; [exact Ht|]. split; [exact Hsep|].
      split; [intros p Hp; right; now apply Hin|].
      split; [cbn [length]; lia|].
      intros p [<-|Hp]; [|now apply Hcov].
      apply Exists_app. now left.
    + pose proof (separated_snoc stored q Hs Hall) as Hs'.
      destruct (IH (stored ++ [q]) Hs')
        as (kept & Ht & Hsep & Hin & Hlen & Hcov).
      exists (q :: kept).
      replace (stored ++ q :: kept) with ((stored ++ [q]) ++ kept)
        by (rewrite <- app_assoc; reflexivity).
      split; [exact Ht|]. split; [exact Hsep|].
      split; [intros p [<-|Hp]; [now left|right; now apply Hin]|].
      split; [cbn [length]; lia|].
      intros p [<-|Hp]; [|now apply Hcov].
      apply Exists_app. left. apply Exists_app. right.
      apply Exists_cons_hd. rewrite flatEarthMeters_self. lra.
Qed.

Lemma trace_is_separated_cover_witness :
  exists kept : list (R * R),
    traceFrom (map latLon [(0, 0)])
      (map latLon [(0, 0); (1 / 111320, 0)])
    = map latLon ([(0, 0)] ++ kept) /\
    separated ([(0, 0)] ++ kept) /\
    (forall q, In q kept -> In q [(0, 0); (1 / 111320, 0)]) /\
    (length kept <= 2)%nat /\
    (forall q, In q [(0, 0); (1 / 111320, 0)] ->
       Exists (fun p => flatEarthMeters p q < 0.5) ([(0, 0)] ++ kept)).
Proof.
  apply (trace_is_separated_cover [(0, 0); (1 / 111320, 0)] [(0, 0)]).
  cbn. split; [constructor|exact I].
Defined.

(** X14.  A fix whose latitude or longitude is NaN is never taken for a
    duplicate: whatever the trace holds, the fix is appended. *)
Theorem nan_fix_is_always_appended (prev : list LatLon) (other : num) :
  ingestGroundTruth prev (NaN, other) = prev ++ [(NaN, other)] /\
  ingestGroundTruth prev (other, NaN) = prev ++ [(other, NaN)].
Proof.
  assert (Hlat : forall point, (flatDistance point (NaN, other) <? 0.5)%js
                               = false).
  { intros [plat plon]. unfold flatDistance. cbn [fst snd].
    destruct plat; reflexivity. }
  assert (Hlon : forall point, (flatDistance point (other, NaN) <? 0.5)%js
                               = false).
  { intros [plat plon]. unfold flatDistance. cbn [fst snd].
    replace (plon - NaN)%js with NaN by (destruct plon; reflexivity).
    cbn [mul Math_pow].
    match goal with
    | |- context [(?u + NaN)%js] =>
        replace (u + NaN)%js with NaN by (destruct u; reflexivity)
    end.
    reflexivity. }
  unfold ingestGroundTruth, isDuplicate. split.
  - replace (existsb _ prev) with false; [reflexivity|].
    induction prev as [|p prev IH]; [reflexivity|].
    cbn [existsb]. now rewrite Hlat, <- IH.
  - replace (existsb _ prev) with false; [reflexivity|].
    induction prev as [|p prev IH]; [reflexivity|].
    cbn [existsb]. now rewrite Hlon, <- IH.
Qed.

(* ================================================================= *)
(** ** Where the projected trace starts *)

Lemma projectPath_nth path g i p :
  (2 <= length path)%nat ->
  nth_error path i = Some p ->
  nth_error (projectPath path (Some g)) i
  = Some ((latitude g + y p / metersPerLatDegree)%js,
          (longitude g + x p / metersPerLonDegreeAt (latitude g))%js).
Proof.
  intros Hlen Hi. unfold projectPath.
  destruct (length path <? 2)%nat eqn:E;
    [apply Nat.ltb_lt in E; lia|].
  rewrite nth_error_map, Hi. reflexivity.
Qed.

Lemma step_keeps_startsAtOrigin h s a :
  startsAtOrigin s -> startsAtOrigin (step h s a).
Proof.
  intros [[rest Hp] [rest' Hr]]. unfold startsAtOrigin.
  destruct a as [event|event| |]; cbn [step].
  - destruct (motion_outcomes h s event)
      as [(_&_&_&_&E5&E6)|[(_&_&_&_&E5&E6)|(_&_&E3&E4)]].
    + rewrite E5, E6. split; [now exists rest|now exists rest'].
    + rewrite E5, E6. split; [now exists rest|now exists rest'].
    + rewrite E4, E3, Hr. cbn [app]. split; now eexists.
  - destruct (handleDeviceOrientation_frame h s event)
      as (_&_&E3&_&_&E6&_).
    rewrite E3, E6. split; [now exists rest|now exists rest'].
  - cbn. split; now exists rest.
  - cbn. split; [now exists []|now exists rest'].
Qed.

(** X15.  The projected trace starts at the anchor.  In every state the
    component reaches from its first render the path begins with the
    origin; and for a finite anchor away from the poles the first point of
    the projection of such a path, when it has two points or more, is the
    anchor's own latitude and longitude.  No rounding is involved: the
    offsets are [0 / m = 0] and the sums [lat + 0] and [lon + 0]. *)
Theorem projected_trace_starts_at_anchor h (l : list Action)
    (lat0 lon0 : R) acc ts :
  cos (lat0 * PI / 180) <> 0 ->
  let s := run h initialState l in
  (exists rest, path s = mkPoint (Fin 0) (Fin 0) :: rest) /\
  ((2 <= length (path s))%nat ->
   nth_error
     (projectPath (path s)
        (Some (mkGpsLocation (Fin lat0) (Fin lon0) acc ts))) 0
   = Some (Fin lat0, Fin lon0)).
Proof.
  intros Hc s.
  assert (H : forall l s0, startsAtOrigin s0 ->
                           startsAtOrigin (run h s0 l)).
  { unfold run. induction l0 as [|a l0 IH]; intros s0 Hs0; cbn [fold_left];
      [exact Hs0|].
    apply IH. now apply step_keeps_startsAtOrigin. }
  assert (Hinit : startsAtOrigin initialState)
    by (split; now exists []).
  destruct (H l initialState Hinit) as [[rest Hp] _]. fold s in Hp.
  split; [now exists rest|].
  intros Hlen.
  rewrite (projectPath_nth _ _ 0%nat (mkPoint (Fin 0) (Fin 0)) Hlen)
    by (rewrite Hp; reflexivity).
  cbn [latitude longitude x y].
  rewrite (project_point_finite lat0 lon0 0 0 Hc).
  do 2 f_equal; f_equal; unfold Rdiv; ring.
Qed.

Lemma projected_trace_starts_at_anchor_witness :
  let s := run host0 initialState
             [Motion (motionAt noReading 0);
              Motion (motionAt noReading 1000)] in
  (exists rest, path s = mkPoint (Fin 0) (Fin 0) :: rest) /\
  ((2 <= length (path s))%nat ->
   nth_error
     (projectPath (path s)
        (Some (mkGpsLocation (Fin 48) (Fin 2) (Fin 5) (Fin 0)))) 0
   = Some (Fin 48, Fin 2)).
Proof.
  apply (projected_trace_starts_at_anchor host0
           [Motion (motionAt noReading 0); Motion (motionAt noReading 1000)]
           48 2 (Fin 5) (Fin 0)).
  assert (Hlo : 0 < 48 * PI / 180 < PI / 2)
    by (pose proof PI_RGT_0; lra).
  pose proof (cos_gt_0 (48 * PI / 180)) as Hcos.
  assert (0 < cos (48 * PI / 180)) by (apply Hcos; lra).
  lra.
Defined.

(** X16.  The projected trace is empty or as long as the path, which is
    then two points at least: it never holds a single point.  The map
    centre remembered in [initialCenter] is set by the first projection
    that is not empty, to the first projected point, and neither effect
    changes it afterwards; the GPS effect moves only the map centre, to
    the latest fix. *)
Theorem initial_center_is_set_once path gpsLocation (s : PVState) :
  (projectPath path gpsLocation = [] \/
   (length (projectPath path gpsLocation) = length path /\
    (2 <= length path)%nat)) /\
  (forall c, initialCenter s = Some c ->
     initialCenter (projectEffect path gpsLocation s) = Some c /\
     mapCenter (projectEffect path gpsLocation s) = mapCenter s /\
     initialCenter (trackEffect gpsLocation s) = Some c) /\
  (forall c rest, initialCenter s = None ->
     projectPath path gpsLocation = c :: rest ->
     initialCenter (projectEffect path gpsLocation s) = Some c /\
     mapCenter (projectEffect path gpsLocation s) = c) /\
  (forall g, gpsLocation = Some g ->
     mapCenter (trackEffect gpsLocation s) = (latitude g, longitude g) /\
     initialCenter (trackEffect gpsLocation s) = initialCenter s).
Proof.
  split; [|split; [|split]].
  - unfold projectPath. destruct gpsLocation as [g|]; [|now left].
    destruct (length path <? 2)%nat eqn:E; [now left|].
    right. apply Nat.ltb_ge in E. split; [apply length_map|exact E].
  - intros c Hc. unfold projectEffect, trackEffect.
    cbn [initialCenter mapCenter]. rewrite Hc.
    destruct gpsLocation; cbn; auto.
  - intros c rest Hn Hp. unfold projectEffect.
    cbn [initialCenter]. rewrite Hn, Hp. cbn. auto.
  - intros g ->. cbn. auto.
Qed.

Lemma initial_center_is_set_once_witness :
  initialCenter
    (projectEffect [mkPoint (Fin 0) (Fin 0)] None
       (mkPVState [] [] (Fin 1, Fin 2) (Some (Fin 1, Fin 2))))
  = Some (Fin 1, Fin 2) /\
  mapCenter
    (trackEffect (Some (mkGpsLocation (Fin 3) (Fin 4) (Fin 5) (Fin 0)))
       pvInitial)
  = (Fin 3, Fin 4).
Proof.
  split.
  - destruct (initial_center_is_set_once [mkPoint (Fin 0) (Fin 0)] None
                (mkPVState [] [] (Fin 1, Fin 2) (Some (Fin 1, Fin 2))))
      as (_ & Hset & _).
    apply (Hset (Fin 1, Fin 2)). reflexivity.
  - destruct (initial_center_is_set_once []
                (Some (mkGpsLocation (Fin 3) (Fin 4) (Fin 5) (Fin 0)))
                pvInitial) as (_ & _ & _ & Htrack).
    apply (Htrack (mkGpsLocation (Fin 3) (Fin 4) (Fin 5) (Fin 0))).
    reflexivity.
Defined.

(* ================================================================= *)
(** ** Starting and stopping the sensors *)

(** X17.  [startMonitoring] registers the two listeners and sets
    [isMonitoring] exactly when neither permission request throws and each
    is absent or answers "granted"; in every other case it sets an error
    message and leaves [isMonitoring] and the listeners as they were.  In
    all cases the dead-reckoning state only loses its timestamp
    baseline. *)
Theorem startMonitoring_outcomes motion orientation (c : Monitoring.Session) :
  let c' := Monitoring.startMonitoring motion orientation c in
  Monitoring.dr c' = assign_lastTimestampRef None (Monitoring.dr c) /\
  (Monitoring.askPermission motion = inl true ->
   Monitoring.askPermission orientation = inl true ->
   Monitoring.isMonitoring c' = true /\
   Monitoring.motionListener c' = true /\
   Monitoring.orientationListener c' = true /\
   Monitoring.error c' = None) /\
  (Monitoring.askPermission motion <> inl true \/
   Monitoring.askPermission orientation <> inl true ->
   Monitoring.error c' <> None /\
   Monitoring.isMonitoring c' = Monitoring.isMonitoring c /\
   Monitoring.motionListener c' = Monitoring.motionListener c /\
   Monitoring.orientationListener c' = Monitoring.orientationListener c).
Proof.
  unfold Monitoring.startMonitoring. cbv zeta.
  destruct (Monitoring.askPermission motion) as [[|]|m];
    destruct (Monitoring.askPermission orientation) as [[|]|o];
    cbn; (split; [reflexivity|]);
    (split; [intros Hm Ho; try discriminate Hm; try discriminate Ho;
             repeat split
            |intros [Hn|Hn]; try (exfalso; apply Hn; reflexivity);
             repeat split; discriminate]).
Qed.

Lemma startMonitoring_outcomes_witness :
  let c := Monitoring.mkSession movingAlongX false None false false in
  Monitoring.isMonitoring
    (Monitoring.startMonitoring Monitoring.NoRequestFunction
       Monitoring.answersGranted c) = true /\
  Monitoring.error
    (Monitoring.startMonitoring Monitoring.answersDenied
       Monitoring.NoRequestFunction c) <> None.
Proof.
  intros c. split.
  - destruct (startMonitoring_outcomes Monitoring.NoRequestFunction
                Monitoring.answersGranted c) as (_ & Hok & _).
    apply Hok; reflexivity.
  - destruct (startMonitoring_outcomes Monitoring.answersDenied
                Monitoring.NoRequestFunction c) as (_ & _ & Hbad).
    apply Hbad. left. discriminate.
Defined.

(** X18.  Pausing does not fake a long time step.  After
    [stopMonitoring] a motion event no longer reaches the handler; and
    after a restart the first motion sample only seeds the baseline:
    velocity, position, path, stationary count and bias are what they
    were before the pause. *)
Theorem pause_does_not_integrate h (c : Monitoring.Session) event acc :
  MotionEvent.acceleration event = Some acc ->
  let stopped := Monitoring.stopMonitoring c in
  let restarted :=
    Monitoring.startMonitoring Monitoring.NoRequestFunction
      Monitoring.NoRequestFunction stopped in
  let s' := Monitoring.dr (Monitoring.dispatchMotion h restarted event) in
  Monitoring.dispatchMotion h stopped event = stopped /\
  lastTimestampRef s' = Some (timestampOf h event) /\
  velRef s' = velRef (Monitoring.dr c) /\
  velocity s' = velocity (Monitoring.dr c) /\
  posRef s' = posRef (Monitoring.dr c) /\
  position s' = position (Monitoring.dr c) /\
  pathRef s' = pathRef (Monitoring.dr c) /\
  path s' = path (Monitoring.dr c) /\
  stationaryCountRef s' = stationaryCountRef (Monitoring.dr c) /\
  accelBiasRef s' = accelBiasRef (Monitoring.dr c).
Proof.
  intros Hacc. cbv zeta. split; [reflexivity|].
  cbn [Monitoring.stopMonitoring Monitoring.startMonitoring
       Monitoring.askPermission Monitoring.dispatchMotion Monitoring.dr
       Monitoring.motionListener Monitoring.isMonitoring Monitoring.error
       Monitoring.orientationListener andb].
  set (s0 := assign_lastTimestampRef None
               (assign_lastTimestampRef None (Monitoring.dr c))).
  destruct (handleDeviceMotion_seed h s0 event acc Hacc eq_refl)
    as (H1&H2&H3&H4&H5&H6&H7&H8&H9).
  rewrite H1, H2, H3, H4, H5, H6, H7, H8, H9. repeat split.
Qed.

Lemma pause_does_not_integrate_witness :
  let c := Monitoring.mkSession movingAlongX true None true true in
  let stopped := Monitoring.stopMonitoring c in
  let restarted :=
    Monitoring.startMonitoring Monitoring.NoRequestFunction
      Monitoring.NoRequestFunction stopped in
  let event := motionAt noReading 900000 in
  let s' := Monitoring.dr (Monitoring.dispatchMotion host0 restarted event) in
  Monitoring.dispatchMotion host0 stopped event = stopped /\
  lastTimestampRef s' = Some (timestampOf host0 event) /\
  velRef s' = velRef movingAlongX /\
  velocity s' = velocity movingAlongX /\
  posRef s' = posRef movingAlongX /\
  position s' = position movingAlongX /\
  pathRef s' = pathRef movingAlongX /\
  path s' = path movingAlongX /\
  stationaryCountRef s' = stationaryCountRef movingAlongX /\
  accelBiasRef s' = accelBiasRef movingAlongX.
Proof.
  apply (pause_does_not_integrate host0
           (Monitoring.mkSession movingAlongX true None true true)
           (motionAt noReading 900000) noReading).
  reflexivity.
Defined.

(* ================================================================= *)
(** ** A clock that does not advance *)

(** A sample stamped less than a millisecond after a finite baseline is
    skipped, with or without an acceleration. *)
Lemma early_sample_is_skipped h s event (t0 t : R) :
  lastTimestampRef s = Some (Fin t0) ->
  MotionEvent.timeStamp event = Num (Fin t) ->
  t < t0 + 1 ->
  handleDeviceMotion h s event = showSensors s event.
Proof.
  intros Hts Et Ht.
  destruct (MotionEvent.acceleration event) as [acc|] eqn:Hacc;
    [|now apply handleDeviceMotion_no_acceleration].
  apply (handleDeviceMotion_tooSoon h s event acc (Fin t0) Hacc Hts).
  unfold timestampOf. rewrite Et. apply tooSoon_finite. lra.
Qed.

(** X19.  A clock that stays behind stalls the integrator.  However many
    motion samples arrive with a timestamp earlier than one millisecond
    after the baseline (repeated or regressing timestamps), none of them
    changes velocity, position, path, stationary count or bias, and the
    baseline stays where it was. *)
Theorem stale_samples_change_nothing h (t0 : R) (l : list MotionEvent.t) :
  forall s,
  lastTimestampRef s = Some (Fin t0) ->
  Forall (fun event => exists t : R,
            MotionEvent.timeStamp event = Num (Fin t) /\ t < t0 + 1) l ->
  let s' := fold_left (handleDeviceMotion h) l s in
  lastTimestampRef s' = Some (Fin t0) /\
  velocity s' = velocity s /\ velRef s' = velRef s /\
  position s' = position s /\ posRef s' = posRef s /\
  path s' = path s /\ pathRef s' = pathRef s /\
  stationaryCountRef s' = stationaryCountRef s /\
  accelBiasRef s' = accelBiasRef s.
Proof.
  induction l as [|event l IH]; intros s Hts Hl; cbn [fold_left].
  - repeat split. exact Hts.
  - inversion Hl as [|? ? (t & Et & Ht) Hl']; subst.
    rewrite (early_sample_is_skipped h s event t0 t Hts Et Ht).
    destruct (showSensors_frame s event)
      as (Hv&Hp&Hpa&_&_&Hvr&Hpr&Hpar&_&Hts'&Hc&Hb&_).
    assert (Hts1 : lastTimestampRef (showSensors s event) = Some (Fin t0))
      by (rewrite Hts'; exact Hts).
    destruct (IH _ Hts1 Hl') as (H1&H2&H3&H4&H5&H6&H7&H8&H9).
    cbv zeta. rewrite H1, H2, H3, H4, H5, H6, H7, H8, H9.
    rewrite Hv, Hp, Hpa, Hvr, Hpr, Hpar, Hc, Hb. repeat split.
Qed.

Lemma stale_samples_change_nothing_witness :
  let l := [motionAt noReading 1000; motionAt sampleTriple 400;
            motionAt noReading 1000.9] in
  let s' := fold_left (handleDeviceMotion host0) l (seededAt 1000) in
  lastTimestampRef s' = Some (Fin 1000) /\
  velocity s' = velocity (seededAt 1000) /\
  velRef s' = velRef (seededAt 1000) /\
  position s' = position (seededAt 1000) /\
  posRef s' = posRef (seededAt 1000) /\
  path s' = path (seededAt 1000) /\
  pathRef s' = pathRef (seededAt 1000) /\
  stationaryCountRef s' = stationaryCountRef (seededAt 1000) /\
  accelBiasRef s' = accelBiasRef (seededAt 1000).
Proof.
  apply (stale_samples_change_nothing host0 1000
           [motionAt noReading 1000; motionAt sampleTriple 400;
            motionAt noReading 1000.9] (seededAt 1000)).
  - reflexivity.
  - repeat constructor.
    + exists 1000. split; [reflexivity|lra].
    + exists 400. split; [reflexivity|lra].
    + exists 1000.9. split; [reflexivity|lra].
Defined.
